(** * hf-raid: balanced distribution of shard files and the throughput harness

    A shallow embedding of [src/hf_raid/split_files.py] ([split_folder]) and of
    [full_concept.py] ([get_weight_files], [load_raid_shards],
    [measure_split_transfer_speed]).

    Python exceptions are values of [Result]; code that touches the file
    system or prints runs in the state-and-exception monad [M], whose state
    survives a raise (a half-applied distribution stays half applied, lines
    printed before an exception stay printed). *)

From Stdlib Require Import ZArith Floats String Ascii.
From stdpp Require Import base list strings sorting.

Open Scope string_scope.
Open Scope list_scope.
Open Scope nat_scope.

(** ** Printed text and exceptions *)

(** A formatted string: the literal parts, [{n}] of an integer and [{x:.2f}]
    of a number.  The digits that [:.2f] prints are not modelled, the number
    that is formatted is. *)
Inductive piece :=
| Str (s : string)
| Int (n : Z)
| F2 (x : float).

Definition text := list piece.

Inductive exn_class :=
| ValueError | IndexError | ZeroDivisionError | OSError | RuntimeError.

(** Every class above derives from [Exception]; [exn_msg] is [str(e)]. *)
Record exn := Exn { exn_cls : exn_class; exn_msg : text }.

Inductive Result (A : Type) :=
| Return (a : A)
| Raise (e : exn).
Arguments Return {A} a.
Arguments Raise {A} e.

#[export] Instance Result_ret : MRet Result := λ A a, Return a.
#[export] Instance Result_bind : MBind Result := λ A B f m,
  match m with Return a => f a | Raise e => Raise e end.

Definition is_Return {A} (r : Result A) : bool :=
  match r with Return _ => true | Raise _ => false end.

Definition raises {A} (r : Result A) (c : exn_class) : Prop :=
  ∃ msg, r = Raise (Exn c msg).

(** ** The monad of effectful code *)

Definition M (S A : Type) : Type := S → S * Result A.

#[export] Instance M_ret {S} : MRet (M S) := λ A a s, (s, Return a).
#[export] Instance M_bind {S} : MBind (M S) := λ A B f m s,
  match m s with
  | (s', Return a) => f a s'
  | (s', Raise e) => (s', Raise e)
  end.

Definition throw {S A} (e : exn) : M S A := λ s, (s, Raise e).

(** A pure computation that may raise, run inside [M]. *)
Definition lift {S A} (r : Result A) : M S A := λ s, (s, r).

(** [try: body except Exception as e: handler(e)] *)
Definition try_except {S A} (body : M S A) (handler : exn → M S A) : M S A :=
  λ s, match body s with
       | (s', Return a) => (s', Return a)
       | (s', Raise e) => handler e s'
       end.

(** [for x in l: body(x)], also [L(l).map(body)] when the results are dropped:
    fastcore's [L.map] is eager. *)
Fixpoint for_ {S A} (l : list A) (body : A → M S unit) : M S unit :=
  match l with
  | [] => mret tt
  | x :: l' => body x ;; for_ l' body
  end.

(** A list comprehension whose element expression may raise. *)
Fixpoint comprehension {A B} (f : A → Result B) (l : list A) : Result (list B) :=
  match l with
  | [] => Return []
  | x :: l' => y ← f x; ys ← comprehension f l'; Return (y :: ys)
  end.

(** ** Python built-ins used by the two files *)

(** [l[i]] for [0 <= i]. *)
Definition getitem {A} (l : list A) (i : nat) : Result A :=
  match l !! i with
  | Some x => Return x
  | None => Raise (Exn IndexError [Str "list index out of range"])
  end.

(** [l[start:end]] for [0 <= start], [0 <= end]: the bounds are clamped to
    the list. *)
Definition py_slice {A} (l : list A) (start end_ : nat) : list A :=
  take (end_ - start) (drop start l).

(** [a // b] and [a % b] on non-negative integers. *)
Definition floordiv (a b : nat) : Result nat :=
  if decide (b = 0) then
    Raise (Exn ZeroDivisionError [Str "integer division or modulo by zero"])
  else Return (a / b).

Definition py_mod (a b : nat) : Result nat :=
  if decide (b = 0) then
    Raise (Exn ZeroDivisionError [Str "integer division or modulo by zero"])
  else Return (a `mod` b).

(** *** Comparison of strings and of sequences

    Python compares sequences lexicographically: the first position where the
    two differ decides, a proper prefix is smaller.  Strings compare by code
    point; a character of [string] is read as a code point below 256. *)
Section lex.
Context {A : Type} (leb : A → A → bool).

Fixpoint lex_leb (l1 l2 : list A) : bool :=
  match l1, l2 with
  | [], _ => true
  | _ :: _, [] => false
  | x :: l1', y :: l2' =>
      if leb x y then (if leb y x then lex_leb l1' l2' else true) else false
  end.
End lex.

Definition chr_leb (a b : ascii) : bool :=
  (N_of_ascii a <=? N_of_ascii b)%N.

Definition str_leb (s1 s2 : string) : bool :=
  lex_leb chr_leb (list_ascii_of_string s1) (list_ascii_of_string s2).

Definition str_le : relation string := λ s1 s2, str_leb s1 s2 = true.

#[export] Instance str_le_dec : RelDecision str_le.
Proof. intros s1 s2. unfold str_le. apply _. Defined.

(** [sorted(l)] of a list of strings.  Python's sort is stable; on a total
    order whose ties are equal strings every sorting algorithm returns the
    same list. *)
Definition sorted_str (l : list string) : list string := merge_sort str_le l.

(** [s.split(sep)] for a one-character separator: always at least one
    component. *)
Fixpoint split (sep : ascii) (s : string) : list string :=
  match s with
  | EmptyString => [EmptyString]
  | String c s' =>
      if Ascii.eqb c sep then EmptyString :: split sep s'
      else match split sep s' with
           | [] => [String c EmptyString]
           | w :: ws => String c w :: ws
           end
  end.

(** [s.rfind(c)], [None] standing for [-1]. *)
Fixpoint rfind (c : ascii) (s : string) : option nat :=
  match s with
  | EmptyString => None
  | String a s' =>
      match rfind c s' with
      | Some i => Some (S i)
      | None => if Ascii.eqb a c then Some 0 else None
      end
  end.

Definition startswith (s pre : string) : bool := String.prefix pre s.

Definition endswith (s suf : string) : bool :=
  let n := String.length s in let k := String.length suf in
  (k <=? n)%nat && String.eqb (String.substring (n - k) k s) suf.

(** *** [int(s)]

    Base-10 [int] of a string: white space is stripped on both sides, one sign
    is allowed, then digits, with single underscores between digits.  Within
    code points below 256 the white space of [int] is tab to carriage return,
    space, NEL and the no-break space; the only decimal digits are 0 to 9.
    (The bound on the number of digits, 4300 by default, is left out: no file
    name is that long.) *)
Definition is_space (c : ascii) : bool :=
  let n := N_of_ascii c in
  ((9 <=? n) && (n <=? 13) || (n =? 32) || (n =? 133) || (n =? 160))%N.

Definition digit_of (c : ascii) : option Z :=
  let n := N_of_ascii c in
  if ((48 <=? n) && (n <=? 57))%N then Some (Z.of_N n - 48)%Z else None.

Fixpoint lstrip (l : list ascii) : list ascii :=
  match l with
  | c :: l' => if is_space c then lstrip l' else l
  | [] => []
  end.

Definition strip (l : list ascii) : list ascii :=
  reverse (lstrip (reverse (lstrip l))).

(** Digits with single underscores between them; [after_digit] tells whether
    the previous character was a digit, [acc] is the value read so far. *)
Fixpoint digits (after_digit : bool) (acc : Z) (l : list ascii) : option Z :=
  match l with
  | [] => if after_digit then Some acc else None
  | c :: l' =>
      match digit_of c with
      | Some d => digits true (10 * acc + d)%Z l'
      | None =>
          if Ascii.eqb c "_" && after_digit then digits false acc l' else None
      end
  end.

Definition int_literal (s : string) : option Z :=
  match strip (list_ascii_of_string s) with
  | c :: l =>
      if Ascii.eqb c "+" then digits false 0 l
      else if Ascii.eqb c "-" then Z.opp <$> digits false 0 l
      else digits false 0 (c :: l)
  | [] => None
  end.

Definition py_int (s : string) : Result Z :=
  match int_literal s with
  | Some n => Return n
  | None =>
      Raise (Exn ValueError
               [Str "invalid literal for int() with base 10: '"; Str s; Str "'"])
  end.

(** *** Numbers

    Python's [float] is the IEEE 754 binary64 of [PrimFloat].  [x / y] raises
    when [y] is zero of either sign.  The accumulators that start as the
    integer [0] are the float zero here: the two agree under every operation
    the code applies to them, up to the wording of the message of a division
    by zero. *)
Definition truediv (x y : float) : Result float :=
  if PrimFloat.is_zero y then
    Raise (Exn ZeroDivisionError [Str "float division by zero"])
  else Return (x / y)%float.

(** The accumulation [total = 0; for x in l: total += x] of lines 51, 52, 69
    and 70, and [sum(l)] as CPython computes it up to version 3.11: left to
    right from [0].  (From version 3.12 on, [sum] carries a compensation term
    for floats; the result is the same for a list of up to two floats,
    which is what the harness sums: one total for each of its two workers.) *)
Definition py_sum (l : list float) : float :=
  fold_left PrimFloat.add l 0%float.

(** [max(l)]: the first element, replaced by each later one that is greater
    than the current maximum. *)
Section py_max.
Context {A : Type} (ltb : A → A → bool).

Definition max_step (m x : A) : A := if ltb m x then x else m.

Definition py_max (l : list A) : Result A :=
  match l with
  | [] => Raise (Exn ValueError [Str "max() arg is an empty sequence"])
  | x :: l' => Return (fold_left max_step l' x)
  end.
End py_max.

(** [n / 1024 ** 3] for a non-negative integer [n]: the quotient is rounded
    once to the nearest float.  (An [OverflowError] would need [n] above
    [2^1053].) *)
Definition int_div_2pow30 (n : Z) : float :=
  SF2Prim (binary_normalize prec emax n (-30) false).

(** ** Paths *)

(** A path is its list of components; [p / n] appends one. *)
Definition Path := list string.

Definition joinpath (p : Path) (n : string) : Path := (p ++ [n])%list.
Declare Scope path_scope.
Infix "/" := joinpath : path_scope.
Delimit Scope path_scope with path.

(** [p.name], [p.parent] and [str(p)] *)
Definition name (p : Path) : string := default "" (last p).
Definition parent (p : Path) : Path := take (length p - 1) p.
Definition path_str (p : Path) : string := String.concat "/" p.

(** [p.suffix] of pathlib: the name from its last dot on, unless that dot is
    the first or the last character of the name. *)
Definition suffix (p : Path) : string :=
  let nm := name p in
  match rfind "." nm with
  | Some i =>
      if (0 <? i)%nat && (i <? String.length nm - 1)%nat
      then String.substring i (String.length nm - i) nm
      else ""
  | None => ""
  end.

(** Paths compare by their components. *)
Definition path_leb (p q : Path) : bool := lex_leb str_leb p q.
Definition path_le : relation Path := λ p q, path_leb p q = true.

#[export] Instance path_le_dec : RelDecision path_le.
Proof. intros p q. unfold path_le. apply _. Defined.

Definition sorted (l : list Path) : list Path := merge_sort path_le l.

(** ** The file system, as [split_folder] uses it

    The three calls [split_folder] makes.  Each may raise ([OSError]: a missing
    source directory, a destination that cannot be created, a move that
    fails).  [split_folder] asks the file system nothing else; in particular it
    never asks whether an entry is a regular file. *)
Class FileSystem (FS : Type) := {
  (** [list(p.iterdir())]: the entries directly under [p], as full paths *)
  fs_iterdir : Path → FS → Result (list Path);
  (** [p.mkdir(exist_ok=True, parents=True)] *)
  fs_mkdir : Path → M FS unit;
  (** [src.rename(dst)] *)
  fs_rename : Path → Path → M FS unit
}.

Inductive op :=
| Mkdir (d : Path)
| Rename (src dst : Path).

Module split_files.
Section with_file_system.
Context `{FileSystem FS}.
Local Open Scope path_scope.

(** fastcore's [Path.ls()] and [Path.ls(file_exts=...)]: the entries of the
    directory, kept when their suffix is one of [file_exts]. *)
Definition ls (d : Path) : M FS (list Path) := λ fs, (fs, fs_iterdir d fs).

Definition ls_file_exts (d : Path) (file_exts : list string) : M FS (list Path) :=
  res ← ls d; mret (filter (λ o, suffix o ∈ file_exts) res).

(** Lines 28 to 37: the loop over [enumerate(destinations)]; [i] and [start]
    are the loop's two running variables. *)
Fixpoint split_loop (st : list Path) (chunk_size remainder i start : nat)
    (dests : list Path) : M FS unit :=
  match dests with
  | [] => mret tt
  | dest :: rest =>
      let extra := if (i <? remainder)%nat then 1 else 0 in
      let end_ := start + chunk_size + extra in
      for_ (py_slice st start end_) (λ x, fs_rename x (dest / name x)) ;;
      split_loop st chunk_size remainder (S i) end_ rest
  end.

Definition split_folder (base_location : Path) (destinations : list Path)
    : M FS unit :=
  all_files ← ls base_location;
  st ← ls_file_exts base_location [".safetensors"];
  let non_st := filter (λ x, x ∉ st) all_files in
  for_ destinations fs_mkdir ;;
  for_ non_st (λ x, d0 ← lift (getitem destinations 0);
                    fs_rename x (d0 / name x)) ;;
  let st := sorted st in
  let n_dest := length destinations in
  chunk_size ← lift (floordiv (length st) n_dest);
  remainder ← lift (py_mod (length st) n_dest);
  split_loop st chunk_size remainder 0 0 destinations.

(** Running a list of file-system calls in order, up to the first that
    raises. *)
Definition exec (o : op) : M FS unit :=
  match o with
  | Mkdir d => fs_mkdir d
  | Rename src dst => fs_rename src dst
  end.

Definition run_ops (ops : list op) : M FS unit := for_ ops exec.
End with_file_system.

(** *** What the loop hands to each destination

    The loop of [split_folder] without its moves: the destination and the
    slice [st[start:end]] of each iteration. *)
Fixpoint loop_slices (st : list Path) (chunk_size remainder i start : nat)
    (dests : list Path) : list (Path * list Path) :=
  match dests with
  | [] => []
  | dest :: rest =>
      let extra := if (i <? remainder)%nat then 1 else 0 in
      let end_ := start + chunk_size + extra in
      (dest, py_slice st start end_)
        :: loop_slices st chunk_size remainder (S i) end_ rest
  end.

(** [st] is the sorted shard list, [dests] the non-empty destination list. *)
Definition assignments (st : list Path) (dests : list Path)
    : list (Path * list Path) :=
  loop_slices st (length st / length dests) (length st `mod` length dests)
    0 0 dests.

(** The two quantities of the specification: how many items beyond
    [chunk_size] destination [i] receives, and where its slice starts. *)
Definition extra (remainder i : nat) : nat :=
  if (i <? remainder)%nat then 1 else 0.

Definition offset (chunk_size remainder i : nat) : nat :=
  i * chunk_size + i `min` remainder.

(** The shard and the non-shard entries of a listing. *)
Definition shards_of (all_files : list Path) : list Path :=
  filter (λ o, suffix o ∈ [".safetensors"]) all_files.

Definition others_of (all_files : list Path) : list Path :=
  filter (λ x, x ∉ shards_of all_files) all_files.

Definition moves_to (dest : Path) (l : list Path) : list op :=
  (λ x, Rename x (dest / name x)%path) <$> l.

Definition shard_moves (st : list Path) (dests : list Path) : list op :=
  mjoin ((λ a, moves_to a.1 a.2) <$> assignments st dests).

End split_files.

(** ** A concrete file system

    A directory tree as the list of its entries, each with its full path and
    its kind, in the order [iterdir] enumerates them.  The root [[]] always
    exists.  It stands for one volume: a move never crosses a mount point. *)
Module tree_fs.

Inductive kind := File | Dir.

#[export] Instance kind_eq_dec : EqDecision kind.
Proof. solve_decision. Defined.

Definition Tree := list (Path * kind).

Definition kind_of (p : Path) (t : Tree) : option kind :=
  match p with
  | [] => Some Dir
  | _ => snd <$> head (filter (λ e, e.1 = p) t)
  end.

Definition children (d : Path) (t : Tree) : list Path :=
  filter (λ p, p ≠ [] ∧ parent p = d) (fst <$> t).

Definition os_error (what : string) (p : Path) : exn :=
  Exn OSError [Str what; Str ": '"; Str (path_str p); Str "'"].

Definition iterdir (d : Path) (t : Tree) : Result (list Path) :=
  match kind_of d t with
  | Some Dir => Return (children d t)
  | Some File => Raise (os_error "Not a directory" d)
  | None => Raise (os_error "No such file or directory" d)
  end.

(** The prefixes of [d] from the shortest on, [d] itself last. *)
Definition ancestors (d : Path) : list Path :=
  (λ n, take n d) <$> seq 1 (length d).

Fixpoint mkdir_all (ds : list Path) : M Tree unit :=
  match ds with
  | [] => mret tt
  | d :: ds' => λ t,
      match kind_of d t with
      | Some Dir => mkdir_all ds' t
      | Some File => (t, Raise (os_error "File exists" d))
      | None => mkdir_all ds' (t ++ [(d, Dir)])%list
      end
  end.

Definition mkdir (d : Path) : M Tree unit := mkdir_all (ancestors d).

Definition is_prefix (p q : Path) : bool := bool_decide (take (length p) q = p).

Definition move_entry (src dst : Path) (e : Path * kind) : Path * kind :=
  if is_prefix src e.1 then ((dst ++ drop (length src) e.1)%list, e.2) else e.

Definition rename (src dst : Path) : M Tree unit := λ t,
  match kind_of src t with
  | None => (t, Raise (os_error "No such file or directory" src))
  | Some k =>
      if bool_decide (src = dst) then (t, Return tt)
      else if is_prefix src dst then (t, Raise (os_error "Invalid argument" src))
      else match kind_of (parent dst) t with
      | Some Dir =>
          let moved := move_entry src dst <$> filter (λ e, e.1 ≠ dst) t in
          match kind_of dst t, k with
          | None, _ => (moved, Return tt)
          | Some File, File => (moved, Return tt)
          | Some Dir, Dir =>
              if bool_decide (children dst t = [])
              then (moved, Return tt)
              else (t, Raise (os_error "Directory not empty" dst))
          | Some Dir, File => (t, Raise (os_error "Is a directory" dst))
          | Some File, Dir => (t, Raise (os_error "Not a directory" dst))
          end
      | Some File => (t, Raise (os_error "Not a directory" dst))
      | None => (t, Raise (os_error "No such file or directory" dst))
      end
  end.

#[export] Instance tree_file_system : FileSystem Tree :=
  {| fs_iterdir := iterdir; fs_mkdir := mkdir; fs_rename := rename |}.

End tree_fs.

(** ** The throughput harness ([full_concept.py]) *)
Module full_concept.

(** One value of the dictionary [load_file] returns.  A tensor has its element
    count and element width; [v.mean().item()] forces it into memory and may
    itself raise (torch has no [mean] for integer tensors). *)
Inductive value :=
| Tensor (nelement element_size : Z) (mean_item : Result unit)
| NotTensor.

(** What the harness reads from outside. *)
Record World := {
  (** the names of the entries of a directory, in the order the system
      enumerates them; none when the directory does not exist *)
  listdir : string → list string;
  (** [Path(f).is_file()] *)
  is_file : string → bool;
  (** [load_file(f).values()] *)
  load_file : string → Result (list value);
  (** [time.time()]: reading number [k] in the process of worker [id] *)
  time_time : nat → nat → float;
  (** the order in which the tasks of the pool complete *)
  arrival : list nat
}.

Definition newline : string := String (ascii_of_nat 10) "".

(** [print(line)] *)
Definition print (line : text) : M (list text) unit :=
  λ out, ((out ++ [line])%list, Return tt).

(** [[str(p) for p in Path(dir).glob("*" + tail)]], for [dir] in pathlib's
    normal form.  pathlib's [glob] also yields hidden entries and
    directories. *)
Definition glob (w : World) (dir tail : string) : list string :=
  (λ n, dir ++ "/" ++ n)%string <$> filter (λ n, endswith n tail = true) (listdir w dir).

(** [Path(f)]: the components of [f], empty ones and [.] dropped. *)
Definition path_of_str (f : string) : Path :=
  filter (λ c, c ≠ "" ∧ c ≠ ".") (split "/" f).

(** [int(Path(f).name.split('-')[1])] *)
Definition shard_number (f : string) : Result Z :=
  c ← getitem (split "-" (name (path_of_str f))) 1; py_int c.

(** A file name that does not follow [model-NNNNN-of-MMMMM.safetensors]: it
    has no ['-'], or its second component between ['-'] is not an integer
    literal of [int]. *)
Definition no_shard_number (f : string) : Prop :=
  let nm := name (path_of_str f) in
  "-"%char ∉ list_ascii_of_string nm
  ∨ ∃ c, split "-" nm !! 1 = Some c ∧ int_literal c = None.

(** A non-empty string of the digits 0 to 9. *)
Definition digit_string (s : string) : bool :=
  negb (String.eqb s "")
  && forallb (λ c, bool_decide (is_Some (digit_of c))) (list_ascii_of_string s).

Definition get_weight_files (w : World) (dir1 dir2 : string)
    : M (list text) (list string * list string) :=
  let files1 := sorted_str (glob w dir1 ".safetensors") in
  let files2 := sorted_str (glob w dir2 ".safetensors") in
  if bool_decide (length files1 ≠ 8 ∨ length files2 ≠ 8) then
    throw (Exn ValueError
             [Str "Expected 8 shards on each RAID. Found ";
              Int (Z.of_nat (length files1)); Str " on RAID0 and ";
              Int (Z.of_nat (length files2)); Str " on RAID1"])
  else
    shard_nums1 ← lift (comprehension shard_number files1);
    shard_nums2 ← lift (comprehension shard_number files2);
    print [Str "Found "; Int (Z.of_nat (length files1)); Str " shards in ";
           Str dir1; Str " (shards 1-8)"] ;;
    print [Str "Found "; Int (Z.of_nat (length files2)); Str " shards in ";
           Str dir2; Str " (shards 9-16)"] ;;
    let other_files :=
      (λ p, name (path_of_str p)) <$>
      filter (λ p, is_file w p
                   && negb (startswith (name (path_of_str p)) "model-")
                   && negb (endswith (name (path_of_str p)) ".safetensors")
                   = true)
             (glob w dir2 "") in
    (match other_files with
     | [] => mret tt
     | _ => print [Str newline; Str "Additional files in RAID1:"] ;;
            for_ (sorted_str other_files) (λ f, print [Str "  "; Str f])
     end) ;;
    mret (files1, files2).

Record ShardEntry := {
  file : string;
  size : float;
  time : float;
  shard : Z
}.

Record WorkerResult := {
  raid_name : string;
  worker_id : nat;
  shards : list ShardEntry;
  total_size : float;
  total_time : float
}.

(** Lines 60 to 64: the bytes of the tensors of one shard. *)
Fixpoint force_load (tensors : list value) (shard_size : Z) : Result Z :=
  match tensors with
  | [] => Return shard_size
  | Tensor nelement element_size mean_item :: rest =>
      _ ← mean_item; force_load rest (shard_size + nelement * element_size)%Z
  | NotTensor :: rest => force_load rest shard_size
  end.

(** Lines 55 to 77: the loop over [enumerate(shard_files)], with the three
    variables it updates. *)
Fixpoint load_loop (w : World) (id i : nat) (shard_files : list string)
    (results : list ShardEntry) (total_size total_time : float)
    : Result (list ShardEntry * float * float) :=
  match shard_files with
  | [] => Return (results, total_size, total_time)
  | shard_file :: rest =>
      let start_time := time_time w id (2 * i) in
      tensors ← load_file w shard_file;
      shard_size ← force_load tensors 0;
      let load_time := (time_time w id (2 * i + 1) - start_time)%float in
      let size_gb := int_div_2pow30 shard_size in
      let total_size := (total_size + size_gb)%float in
      let total_time := (total_time + load_time)%float in
      n ← shard_number shard_file;
      load_loop w id (S i) rest
        (results ++ [{| file := shard_file; size := size_gb;
                        time := load_time; shard := n |}])%list
        total_size total_time
  end.

Definition load_raid_shards (w : World) (args : list string * string * nat)
    : Result WorkerResult :=
  let '(shard_files, raid_name, worker_id) := args in
  '(results, total_size, total_time) ←
     load_loop w worker_id 0 shard_files [] 0%float 0%float;
  Return {| raid_name := raid_name; worker_id := worker_id;
            shards := results;
            total_size := total_size; total_time := total_time |}.

(** The steps of one iteration that may raise: reading the shard, forcing its
    tensors, and the shard number taken from the file name. *)
Definition shard_outcome (w : World) (shard_file : string) : Result (Z * Z) :=
  tensors ← load_file w shard_file;
  shard_size ← force_load tensors 0;
  n ← shard_number shard_file;
  Return (shard_size, n).

Definition is_tensor (v : value) : bool :=
  match v with Tensor _ _ _ => true | NotTensor => false end.

(** The same world with every value that is not a tensor removed from what
    [load_file] returns. *)
Definition without_non_tensors (w : World) : World :=
  {| listdir := listdir w;
     is_file := is_file w;
     load_file f := match load_file w f with
                    | Return vs => Return (filter (λ v, is_tensor v = true) vs)
                    | Raise e => Raise e
                    end;
     time_time := time_time w;
     arrival := arrival w |}.

(** [pool.map(f, args)]: every task runs to its end in a process of its own;
    the list of results when all returned, else the exception of the failed
    task that completed first. *)
Definition first_failure {B} (arrival : list nat) (outcomes : list (Result B))
    : option exn :=
  head (omap (λ i, match outcomes !! i with
                   | Some (Raise e) => Some e
                   | _ => None
                   end) arrival).

Definition pool_map {A B} (arrival : list nat) (f : A → Result B)
    (args : list A) : Result (list B) :=
  let outcomes := f <$> args in
  match comprehension id outcomes with
  | Return rs => Return rs
  | Raise e => Raise (default e (first_failure arrival outcomes))
  end.

(** Lines 112 to 123 *)
Definition process_results (results : list WorkerResult) : M (list text) unit :=
  for_ results (λ raid_result,
    print [Str newline; Str (raid_name raid_result); Str " Results:"] ;;
    print [Str "Total Size: "; F2 (total_size raid_result); Str " GB"] ;;
    print [Str "Total Time: "; F2 (total_time raid_result); Str " seconds"] ;;
    speed ← lift (truediv (total_size raid_result) (total_time raid_result));
    print [Str "Average Speed: "; F2 speed; Str " GB/s"] ;;
    print [Str newline; Str "Individual Shard Details:"] ;;
    for_ (shards raid_result) (λ shard,
      print [Str "Shard "; Int (full_concept.shard shard); Str ": ";
             Str (name (path_of_str (file shard)))] ;;
      print [Str "  Size: "; F2 (size shard); Str " GB"] ;;
      speed ← lift (truediv (size shard) (time shard));
      print [Str "  Speed: "; F2 speed; Str " GB/s"])).

(** Lines 126 to 134 *)
Definition overall_statistics (results : list WorkerResult)
    : M (list text) unit :=
  let total_size := py_sum (total_size <$> results) in
  max_time ← lift (py_max PrimFloat.ltb (total_time <$> results));
  print [Str newline; Str "Overall Statistics:"] ;;
  for_ results (λ r,
    speed ← lift (truediv (full_concept.total_size r) (total_time r));
    print [Str (raid_name r); Str ": "; F2 (full_concept.total_size r);
           Str " GB at "; F2 speed; Str " GB/s"]) ;;
  print [Str "Combined Data Loaded: "; F2 total_size; Str " GB"] ;;
  print [Str "Total Time: "; F2 max_time; Str " seconds"] ;;
  speed ← lift (truediv total_size max_time);
  print [Str "Effective Speed: "; F2 speed; Str " GB/s"].

(** The first line printed, the four lines printed before the pool starts,
    and the line the handler prints. *)
Definition banner (dir1 dir2 : string) : text :=
  [Str "Measuring transfer speed between "; Str dir1; Str " and "; Str dir2].

Definition announcement : list text :=
  [[Str newline; Str "Using "; Int 2; Str " workers for parallel loading"];
   [Str "Worker 0 will process all shards from RAID0"];
   [Str "Worker 1 will process all shards from RAID1"];
   [Str newline; Str "Loading shards in parallel..."]].

Definition error_line (e : exn) : text :=
  Str "Error during measurement: " :: exn_msg e.

(** Lines 92 to 134: the body of the [try] *)
Definition measure_try_block (w : World) (dir1 dir2 : string)
    : M (list text) unit :=
  '(files1, files2) ← get_weight_files w dir1 dir2;
  let num_workers := 2%Z in
  print [Str newline; Str "Using "; Int num_workers;
         Str " workers for parallel loading"] ;;
  print [Str "Worker 0 will process all shards from RAID0"] ;;
  print [Str "Worker 1 will process all shards from RAID1"] ;;
  let worker_args := [(files1, "RAID0", 0); (files2, "RAID1", 1)] in
  print [Str newline; Str "Loading shards in parallel..."] ;;
  results ← lift (pool_map (arrival w) (load_raid_shards w) worker_args);
  process_results results ;;
  overall_statistics results.

Definition measure_split_transfer_speed (w : World) (dir1 dir2 : string)
    : M (list text) unit :=
  print (banner dir1 dir2) ;;
  try_except (measure_try_block w dir1 dir2) (λ e, print (error_line e)).

(** Line 64: the bytes a value adds to the size of its shard. *)
Definition tensor_bytes (v : value) : Z :=
  match v with
  | Tensor nelement element_size _ => (nelement * element_size)%Z
  | NotTensor => 0%Z
  end.

(** Whether forcing a value into memory goes through. *)
Definition forced (v : value) : bool :=
  match v with
  | Tensor _ _ mean_item => is_Return mean_item
  | NotTensor => true
  end.

(** The number a string of digits denotes, most significant digit first. *)
Definition digits_value (s : string) : Z :=
  fold_left (λ acc c, (10 * acc + default 0 (digit_of c))%Z)
            (list_ascii_of_string s) 0%Z.

(** Lines 117 and 123: the durations [process_results] divides by. *)
Definition durations_nonzero (r : WorkerResult) : Prop :=
  PrimFloat.is_zero (total_time r) = false
  ∧ Forall (λ s, PrimFloat.is_zero (time s) = false) (shards r).

(** What lines 112 to 123 print for one shard and for one volume when no
    division fails. *)
Definition shard_report (s : ShardEntry) : list text :=
  [[Str "Shard "; Int (shard s); Str ": "; Str (name (path_of_str (file s)))];
   [Str "  Size: "; F2 (size s); Str " GB"];
   [Str "  Speed: "; F2 (size s / time s)%float; Str " GB/s"]].

Definition volume_report_head (r : WorkerResult) : list text :=
  [[Str newline; Str (raid_name r); Str " Results:"];
   [Str "Total Size: "; F2 (total_size r); Str " GB"];
   [Str "Total Time: "; F2 (total_time r); Str " seconds"];
   [Str "Average Speed: "; F2 (total_size r / total_time r)%float;
    Str " GB/s"];
   [Str newline; Str "Individual Shard Details:"]].

Definition volume_report (r : WorkerResult) : list text :=
  volume_report_head r ++ mjoin (shard_report <$> shards r).

End full_concept.

(** ** Concrete inputs *)
Module examples.
Import tree_fs.

Definition digit (i : nat) : string := String (ascii_of_nat (48 + i)) "".

(** [model-000NN-of-00016.safetensors] *)
Definition shard_name (i : nat) : string :=
  ("model-000" ++ digit (i / 10) ++ digit (i `mod` 10)
   ++ "-of-00016.safetensors")%string.

(** A source directory with two configuration files, a subdirectory and [n]
    shards, which the system enumerates last to first. *)
Definition src_tree (n : nat) : Tree :=
  [(["src"], Dir); (["src"; "config.json"], File);
   (["src"; "assets"], Dir); (["src"; "assets"; "logo.png"], File)]
  ++ ((λ i, (["src"; shard_name i], File)) <$> reverse (seq 1 n))
  ++ [(["src"; "tokenizer.json"], File)].

Definition two_volumes : list Path := [["mnt"; "raid0"]; ["mnt"; "raid1"]].

(** The entries of [src] in [src_tree n], as [iterdir] lists them. *)
Definition src_entries (n : nat) : list Path := children ["src"] (src_tree n).

(** Nine shard paths in lexical order. *)
Definition nine_shards : list Path := (λ i, ["src"; shard_name i]) <$> seq 1 9.

(** The paths of [src_tree 2] with other kinds: the first shard and
    [config.json] are directories. *)
Definition src_tree_other_kinds : Tree :=
  [(["src"], Dir); (["src"; "config.json"], Dir);
   (["src"; "assets"], Dir); (["src"; "assets"; "logo.png"], File);
   (["src"; shard_name 2], File); (["src"; shard_name 1], Dir);
   (["src"; "tokenizer.json"], File)].

(** Three worker results of which the second took longest. *)
Definition three_results : list full_concept.WorkerResult :=
  [ {| full_concept.raid_name := "RAID0"; full_concept.worker_id := 0;
       full_concept.shards := [];
       full_concept.total_size := 4; full_concept.total_time := 2 |};
    {| full_concept.raid_name := "RAID1"; full_concept.worker_id := 1;
       full_concept.shards := [];
       full_concept.total_size := 4; full_concept.total_time := 8 |};
    {| full_concept.raid_name := "RAID2"; full_concept.worker_id := 2;
       full_concept.shards := [];
       full_concept.total_size := 8; full_concept.total_time := 4 |} ]%float.

(** Two volumes of eight shards each, half a gigabyte per shard; the second
    volume also holds a configuration file.  Worker 0 needs an eighth of a
    second per clock reading, worker 1 a quarter; worker 1 completes first. *)
Fixpoint clock (step : float) (k : nat) : float :=
  match k with
  | 0 => 0%float
  | S k' => (clock step k' + step)%float
  end.

Definition two_volume_world
    (load : string → Result (list full_concept.value)) : full_concept.World :=
  {| full_concept.listdir d :=
       if String.eqb d "/mnt/raid0" then shard_name <$> reverse (seq 1 8)
       else if String.eqb d "/mnt/raid1"
            then "config.json" :: (shard_name <$> seq 9 8)
            else [];
     full_concept.is_file f := true;
     full_concept.load_file := load;
     full_concept.time_time id k :=
       clock (if (id =? 0)%nat then 0.125 else 0.25)%float k;
     full_concept.arrival := [1; 0] |}.

Definition half_gigabyte : list full_concept.value :=
  [full_concept.Tensor (2 ^ 28) 2 (Return tt)].

Definition healthy_world : full_concept.World :=
  two_volume_world (λ _, Return half_gigabyte).

(** Every shard also holds a value that is not a tensor. *)
Definition non_tensor_world : full_concept.World :=
  two_volume_world (λ _, Return (half_gigabyte ++ [full_concept.NotTensor])).

(** Reading the third shard of the first volume fails. *)
Definition read_failure_world : full_concept.World :=
  two_volume_world (λ f,
    if String.eqb f ("/mnt/raid0/" ++ shard_name 3)%string
    then Raise (Exn OSError [Str "Input/output error: '"; Str f; Str "'"])
    else Return half_gigabyte).

Definition raid0_files : list string :=
  sorted_str (full_concept.glob healthy_world "/mnt/raid0" ".safetensors").

Definition raid1_files : list string :=
  sorted_str (full_concept.glob healthy_world "/mnt/raid1" ".safetensors").

End examples.

(** * Properties *)

(** ** The monad *)

Ltac unfold_M :=
  unfold mbind, mret, M_bind, M_ret, Result_bind, Result_ret, lift, throw,
    try_except in *.

Section monad_facts.
Context {S : Type}.

Lemma for_app {A} (l1 l2 : list A) (body : A → M S unit) s :
  for_ (l1 ++ l2)%list body s = (for_ l1 body ;; for_ l2 body) s.
Proof.
  revert s. induction l1 as [|x l1 IH]; intros s; simpl.
  - done.
  - unfold_M. destruct (body x s) as [s' [[]|e]]; [apply IH | done].
Qed.

Lemma for_fmap {A B} (f : A → B) (l : list A) (body : B → M S unit) s :
  for_ (f <$> l) body s = for_ l (body ∘ f) s.
Proof.
  revert s. induction l as [|x l IH]; intros s; simpl; [done|].
  unfold_M. destruct (body (f x) s) as [s' [[]|e]]; [apply IH | done].
Qed.

Lemma for_ext {A} (l : list A) (body1 body2 : A → M S unit) s :
  (∀ x s', x ∈ l → body1 x s' = body2 x s') →
  for_ l body1 s = for_ l body2 s.
Proof.
  revert s. induction l as [|x l IH]; intros s Hb; simpl; [done|].
  unfold_M. rewrite (Hb x s) by left.
  destruct (body2 x s) as [s' [[]|e]]; [|done].
  apply IH. intros y s'' Hy. apply Hb. by right.
Qed.
End monad_facts.

(** ** The order of strings and of paths *)

Section lex_facts.
Context {A : Type} (leb : A → A → bool).
Hypothesis leb_total : ∀ x y, leb x y = true ∨ leb y x = true.
Hypothesis leb_trans : ∀ x y z, leb x y = true → leb y z = true → leb x z = true.

Lemma lex_leb_total l1 l2 : lex_leb leb l1 l2 = true ∨ lex_leb leb l2 l1 = true.
Proof.
  revert l2. induction l1 as [|x l1 IH]; intros [|y l2]; simpl; auto.
  destruct (leb_total x y) as [H|H]; rewrite H;
    destruct (leb y x) eqn:E; destruct (leb x y) eqn:E'; auto; done.
Qed.

Lemma lex_leb_trans l1 l2 l3 :
  lex_leb leb l1 l2 = true → lex_leb leb l2 l3 = true → lex_leb leb l1 l3 = true.
Proof.
  revert l2 l3. induction l1 as [|x l1 IH]; intros [|y l2] [|z l3]; simpl; try done.
  destruct (leb x y) eqn:Exy; [|done].
  destruct (leb y z) eqn:Eyz; [|by destruct (leb y x)].
  rewrite (leb_trans _ _ _ Exy Eyz).
  pose proof (leb_trans z y x) as T1.
  pose proof (leb_trans z x y) as T2.
  pose proof (leb_trans y z x) as T3.
  destruct (leb y x) eqn:Eyx, (leb z y) eqn:Ezy, (leb z x) eqn:Ezx;
    try done; try apply IH; intros _ _; exfalso; naive_solver.
Qed.
End lex_facts.

Lemma chr_leb_total a b : chr_leb a b = true ∨ chr_leb b a = true.
Proof. unfold chr_leb. rewrite !N.leb_le. lia. Qed.

Lemma chr_leb_trans a b c :
  chr_leb a b = true → chr_leb b c = true → chr_leb a c = true.
Proof. unfold chr_leb. rewrite !N.leb_le. lia. Qed.

#[export] Instance str_le_total : Total str_le.
Proof. intros s1 s2. apply (lex_leb_total _ chr_leb_total). Qed.

#[export] Instance str_le_trans : Transitive str_le.
Proof. intros s1 s2 s3. apply (lex_leb_trans _ chr_leb_trans). Qed.

#[export] Instance path_le_total : Total path_le.
Proof. intros p q. apply (lex_leb_total _ str_le_total). Qed.

#[export] Instance path_le_trans : Transitive path_le.
Proof. intros p q r. apply (lex_leb_trans _ str_le_trans). Qed.

Lemma sorted_Permutation l : sorted l ≡ₚ l.
Proof. apply merge_sort_Permutation. Qed.

Lemma sorted_StronglySorted l : StronglySorted path_le (sorted l).
Proof. apply (StronglySorted_merge_sort _). Qed.

Lemma sorted_length l : length (sorted l) = length l.
Proof. by rewrite sorted_Permutation. Qed.

(** ** [split_folder] *)
Module split_facts.
Import split_files.

Section runs.
Context `{FileSystem FS}.
Implicit Types (fs : FS) (st dests : list Path).

Lemma run_ops_app ops1 ops2 fs :
  run_ops (ops1 ++ ops2)%list fs = (run_ops ops1 ;; run_ops ops2) fs.
Proof. apply for_app. Qed.

Lemma for_moves dest (l : list Path) fs :
  for_ l (λ x, fs_rename x (dest / name x)%path) fs
  = run_ops (moves_to dest l) fs.
Proof. unfold run_ops, moves_to. by rewrite for_fmap. Qed.

Lemma for_mkdir dests fs :
  for_ dests fs_mkdir fs = run_ops (Mkdir <$> dests) fs.
Proof. unfold run_ops. by rewrite for_fmap. Qed.

(** The loop makes the moves of [loop_slices], in that order. *)
Lemma split_loop_run st c r dests i start fs :
  split_loop st c r i start dests fs
  = run_ops (mjoin ((λ a, moves_to a.1 a.2)
                      <$> loop_slices st c r i start dests)) fs.
Proof.
  revert i start fs. induction dests as [|dest rest IH]; intros i start fs.
  - done.
  - cbn [split_loop loop_slices fmap list_fmap mjoin list_join].
    rewrite run_ops_app. unfold_M. cbn [fst snd].
    rewrite for_moves.
    destruct (run_ops _ fs) as [fs' [[]|e]]; [apply IH | done].
Qed.

(** With a listing in hand and at least one destination, [split_folder] is
    this sequence of calls: the directories, the other files to the first
    destination, the shards slice by slice. *)
Lemma split_folder_run base d0 ds all_files fs :
  fs_iterdir base fs = Return all_files →
  split_folder base (d0 :: ds) fs
  = run_ops ((Mkdir <$> d0 :: ds)
             ++ moves_to d0 (others_of all_files)
             ++ shard_moves (sorted (shards_of all_files)) (d0 :: ds))%list fs.
Proof.
  intros Hls. unfold split_folder, ls_file_exts, ls.
  rewrite !run_ops_app. unfold_M. rewrite Hls.
  rewrite for_mkdir.
  destruct (run_ops (Mkdir <$> d0 :: ds) fs) as [fs1 [[]|e]]; [|done].
  rewrite (for_ext _ _ (λ x, fs_rename x (d0 / name x)%path)) by done.
  rewrite for_moves. fold (shards_of all_files). fold (others_of all_files).
  rewrite run_ops_app. unfold_M.
  destruct (run_ops (moves_to d0 _) fs1) as [fs2 [[]|e]]; [|done].
  unfold floordiv, py_mod. rewrite !decide_False by done.
  apply split_loop_run.
Qed.

(** Without destinations [split_folder] raises before any call. *)
Lemma split_folder_no_destination base all_files fs :
  fs_iterdir base fs = Return all_files →
  ∃ e, split_folder base [] fs = (fs, Raise e).
Proof.
  intros Hls. unfold split_folder, ls_file_exts, ls. unfold_M. rewrite Hls.
  cbn [for_]. fold (shards_of all_files). fold (others_of all_files).
  destruct (others_of all_files) as [|x l]; cbn; eauto.
Qed.
End runs.

Implicit Types (c r i j n k : nat) (st dests : list Path).

Lemma shards_of_spec all_files x :
  x ∈ shards_of all_files ↔ x ∈ all_files ∧ suffix x = ".safetensors".
Proof.
  unfold shards_of. rewrite list_elem_of_filter, list_elem_of_singleton. tauto.
Qed.

Lemma others_of_spec all_files x :
  x ∈ others_of all_files ↔ x ∈ all_files ∧ suffix x ≠ ".safetensors".
Proof.
  unfold others_of. rewrite list_elem_of_filter, shards_of_spec. tauto.
Qed.

(** *** The slices *)

Lemma offset_S c r i : offset c r (S i) = offset c r i + c + extra r i.
Proof.
  unfold offset, extra. destruct (Nat.ltb_spec i r); lia.
Qed.

Lemma offset_le n k i :
  k ≠ 0 → i ≤ k → offset (n / k) (n `mod` k) i ≤ n.
Proof.
  intros Hk Hi. unfold offset.
  pose proof (Nat.div_mod_eq n k).
  assert (i * (n / k) ≤ k * (n / k)) by (apply Nat.mul_le_mono_r; lia).
  lia.
Qed.

Lemma offset_all n k : k ≠ 0 → offset (n / k) (n `mod` k) k = n.
Proof.
  intros Hk. unfold offset.
  pose proof (Nat.div_mod_eq n k). pose proof (Nat.mod_upper_bound n k Hk).
  lia.
Qed.

Lemma loop_slices_imap st c r dests i :
  loop_slices st c r i (offset c r i) dests
  = imap (λ j d, (d, take (c + extra r (i + j)) (drop (offset c r (i + j)) st)))
         dests.
Proof.
  revert i. induction dests as [|dest rest IH]; intros i; [done|].
  cbn [loop_slices imap]. fold (extra r i). f_equal.
  - rewrite Nat.add_0_r. unfold py_slice. do 2 f_equal. lia.
  - rewrite <-offset_S, IH. apply imap_ext. intros j d _. cbn.
    by rewrite Nat.add_succ_r.
Qed.

Lemma assignments_lookup st dests i dest :
  dests !! i = Some dest →
  assignments st dests !! i
  = Some (dest, take (length st / length dests
                      + extra (length st `mod` length dests) i)
                     (drop (offset (length st / length dests)
                                   (length st `mod` length dests) i) st)).
Proof.
  intros Hi. unfold assignments.
  change 0 with (offset (length st / length dests)
                   (length st `mod` length dests) 0) at 2.
  rewrite loop_slices_imap, list_lookup_imap, Hi. done.
Qed.

Lemma assignments_length st dests : length (assignments st dests) = length dests.
Proof.
  unfold assignments.
  change 0 with (offset (length st / length dests)
                   (length st `mod` length dests) 0) at 2.
  by rewrite loop_slices_imap, length_imap.
Qed.

Lemma loop_slices_join st c r dests i :
  mjoin (snd <$> loop_slices st c r i (offset c r i) dests)
  = take (offset c r (i + length dests) - offset c r i)
         (drop (offset c r i) st).
Proof.
  revert i. induction dests as [|dest rest IH]; intros i.
  - cbn. by rewrite Nat.add_0_r, Nat.sub_diag.
  - cbn [loop_slices fmap list_fmap mjoin list_join snd length].
    fold (extra r i). rewrite <-offset_S, IH.
    rewrite (offset_S c r i) at 3. rewrite <-Nat.add_assoc, <-drop_drop.
    unfold py_slice.
    replace (offset c r (S i) - offset c r i) with (c + extra r i)
      by (rewrite offset_S; lia).
    rewrite take_take_drop. f_equal.
    rewrite Nat.add_succ_r. cbn [Nat.add].
    assert (offset c r (S i) ≤ offset c r (S (i + length rest))).
    { unfold offset. assert (S i * c ≤ S (i + length rest) * c)
        by (apply Nat.mul_le_mono_r; lia). lia. }
    pose proof (offset_S c r i). lia.
Qed.

Lemma assignments_join st dests :
  dests ≠ [] → mjoin (snd <$> assignments st dests) = st.
Proof.
  intros Hd. unfold assignments.
  assert (length dests ≠ 0) by (by destruct dests).
  change 0 with (offset (length st / length dests)
                   (length st `mod` length dests) 0) at 2.
  rewrite loop_slices_join. cbn [Nat.add].
  rewrite offset_all by done. unfold offset at 1 2. cbn [Nat.mul Nat.min Nat.add].
  rewrite Nat.sub_0_r. apply firstn_all.
Qed.

(** Lists whose concatenation has no duplicates are pairwise disjoint. *)
Lemma join_NoDup_disjoint {A} (ls : list (list A)) i j a b x :
  NoDup (mjoin ls) → i ≠ j → ls !! i = Some a → ls !! j = Some b →
  x ∈ a → x ∈ b → False.
Proof.
  revert i j. induction ls as [|l ls IH]; intros i j Hnd Hij Ha Hb Hxa Hxb.
  - done.
  - cbn in Hnd. apply NoDup_app in Hnd as (Hl & Hdisj & Hrest).
    destruct i as [|i], j as [|j]; simplify_eq/=.
    + apply (Hdisj x Hxa), list_elem_of_join. exists b. split; [done|].
      by eapply list_elem_of_lookup_2.
    + apply (Hdisj x Hxb), list_elem_of_join. exists a. split; [done|].
      by eapply list_elem_of_lookup_2.
    + eapply (IH i j); eauto.
Qed.

End split_facts.

Import split_files split_facts tree_fs.

Lemma assignments_fst (st dests : list Path) : (assignments st dests).*1 = dests.
Proof.
  unfold assignments.
  change 0 with (offset (length st / length dests)
                   (length st `mod` length dests) 0) at 2.
  rewrite loop_slices_imap, fmap_imap. apply list_eq. intros j.
  rewrite list_lookup_imap. by destruct (dests !! j).
Qed.

Lemma assignment_slice_length (st dests : list Path) (i : nat) :
  i < length dests →
  length (take (length st / length dests
                + extra (length st `mod` length dests) i)
               (drop (offset (length st / length dests)
                             (length st `mod` length dests) i) st))
  = length st / length dests + extra (length st `mod` length dests) i.
Proof.
  intros Hi. rewrite length_take, length_drop.
  pose proof (offset_le (length st) (length dests) (S i) ltac:(lia) ltac:(lia)).
  rewrite offset_S in *. lia.
Qed.

(** The shard moves, destination by destination: destination [i] gets the
    [c + extra r i] items of [st] from position [offset c r i] on, where
    [c = len(st) // k] and [r = len(st) % k]. *)
Lemma shard_moves_imap (st dests : list Path) :
  shard_moves st dests
  = mjoin (imap (λ i dest,
             moves_to dest
               (take (length st / length dests
                      + extra (length st `mod` length dests) i)
                     (drop (offset (length st / length dests)
                                   (length st `mod` length dests) i) st)))
             dests).
Proof.
  unfold shard_moves, assignments.
  change 0 with (offset (length st / length dests)
                   (length st `mod` length dests) 0) at 2.
  rewrite loop_slices_imap, fmap_imap. f_equal.
Qed.

Lemma zip_with_imap {A B C} (f : A → B → C) (g : nat → A → B) (l : list A) :
  zip_with f l (imap g l) = imap (λ i a, f a (g i a)) l.
Proof.
  revert g. induction l as [|a l IH]; intros g; [done|].
  cbn [imap zip_with]. f_equal. apply IH.
Qed.

(** C1 — split balance.  Let [st] be the sorted list of the [.safetensors]
    entries of the source and [k] the number of destinations, at least one.
    With [base = len(st) // k] and [remainder = len(st) % k], [split_folder]
    creates the destinations, moves the other entries to the first of them,
    and then moves to destination [i], for [i = 0, 1, ...] in this order, the
    slice of [st] that starts at [i * base + min i remainder] and has
    [base + 1] items when [i < remainder] and [base] items otherwise; it makes
    no other call.  Each slice has that many items and lies in [st] right
    after the items of the slices before it; any two slices differ by at most
    one item; a destination whose index is at least [len(st)] gets the empty
    slice, so no move and no error. *)
Theorem split_balance (FS : Type) (HFS : FileSystem FS) (fs : FS)
    (base_location d0 : Path) (ds all_files : list Path) :
  fs_iterdir base_location fs = Return all_files →
  let dests := d0 :: ds in
  let st := sorted (shards_of all_files) in
  let k := length dests in
  let base := length st / k in
  let remainder := length st `mod` k in
  let size i := base + (if (i <? remainder)%nat then 1 else 0) in
  let start i := i * base + i `min` remainder in
  let slice i := take (size i) (drop (start i) st) in
  split_folder base_location dests fs
  = run_ops ((Mkdir <$> dests)
             ++ ((λ x, Rename x (d0 / name x)%path) <$> others_of all_files)
             ++ mjoin (imap (λ i dest,
                         (λ x, Rename x (dest / name x)%path) <$> slice i)
                         dests)) fs
  ∧ (∀ i, i < k →
       length (slice i) = size i
       ∧ st = take (start i) st ++ slice i ++ drop (start i + size i) st)
  ∧ (∀ i j, i < k → j < k → length (slice i) ≤ length (slice j) + 1)
  ∧ (∀ i, length st ≤ i → i < k → slice i = []).
Proof.
  intros Hls dests st k base remainder size start slice.
  assert (∀ i, i < k → length (slice i) = size i) as Hlen.
  { intros i Hi. apply (assignment_slice_length st dests i Hi). }
  split; [|split; [|split]].
  - etrans; [exact (split_folder_run _ _ _ _ _ Hls)|].
    fold dests st. by rewrite shard_moves_imap.
  - intros i Hi. split; [by apply Hlen|].
    rewrite <-(drop_drop st). unfold slice.
    by rewrite take_drop, take_drop.
  - intros i j Hi Hj. rewrite !Hlen by done. unfold size.
    destruct (i <? remainder)%nat, (j <? remainder)%nat; lia.
  - intros i Hn Hi. unfold slice, size, base, remainder.
    rewrite Nat.div_small, Nat.mod_small by lia.
    by destruct (Nat.ltb_spec i (length st)); [lia|].
Qed.

(** C2 — split completeness and order.  For every listing of the source
    without repeated entries and every destination list with at least one
    destination, [split_folder] creates the destinations, moves the other
    entries to the first, and then makes, destination by destination, the
    moves of one part of the shards for each destination, and nothing else.
    These parts, concatenated in destination order, are the sorted shard
    list, which is the shard subset of the listing in lexical order; two
    different parts share no file; every shard lies in exactly one part; and
    each part keeps the order of the sorted list. *)
Theorem split_completeness (FS : Type) (HFS : FileSystem FS) (fs : FS)
    (base_location d0 : Path) (ds all_files : list Path) :
  fs_iterdir base_location fs = Return all_files →
  NoDup all_files →
  let dests := d0 :: ds in
  let st := sorted (shards_of all_files) in
  let base := length st / length dests in
  let remainder := length st `mod` length dests in
  let parts :=
    imap (λ i _, take (base + extra remainder i)
                      (drop (offset base remainder i) st)) dests in
  split_folder base_location dests fs
  = run_ops ((Mkdir <$> dests)
             ++ ((λ x, Rename x (d0 / name x)%path) <$> others_of all_files)
             ++ mjoin (zip_with
                         (λ dest part,
                            (λ x, Rename x (dest / name x)%path) <$> part)
                         dests parts)) fs
  ∧ length parts = length dests
  ∧ mjoin parts = st
  ∧ st ≡ₚ shards_of all_files
  ∧ StronglySorted path_le st
  ∧ (∀ i j a b x, i ≠ j → parts !! i = Some a → parts !! j = Some b →
                  x ∈ a → x ∉ b)
  ∧ (∀ x, x ∈ shards_of all_files →
          ∃ i a, parts !! i = Some a ∧ x ∈ a
                 ∧ ∀ j b, parts !! j = Some b → x ∈ b → j = i)
  ∧ (∀ i a, parts !! i = Some a → a `sublist_of` st).
Proof.
  intros Hls Hnd dests st base remainder parts.
  assert (parts = (assignments st dests).*2) as Hparts.
  { unfold assignments.
    change 0 with (offset (length st / length dests)
                     (length st `mod` length dests) 0) at 2.
    by rewrite loop_slices_imap, fmap_imap. }
  assert (mjoin parts = st) as Hjoin
    by (rewrite Hparts; by apply assignments_join).
  assert (NoDup st) as Hst.
  { unfold st. rewrite sorted_Permutation. by apply NoDup_filter. }
  split; [|split; [|split; [|split; [|split; [|split; [|split]]]]]].
  - etrans; [exact (split_folder_run _ _ _ _ _ Hls)|].
    fold dests st. rewrite shard_moves_imap. unfold parts.
    by rewrite zip_with_imap.
  - unfold parts. by rewrite length_imap.
  - done.
  - apply sorted_Permutation.
  - apply sorted_StronglySorted.
  - intros i j a b x Hij Ha Hb Hxa Hxb.
    eapply (join_NoDup_disjoint parts i j a b x); eauto. by rewrite Hjoin.
  - intros x Hx.
    assert (x ∈ mjoin parts) as Hin
      by (rewrite Hjoin; unfold st; by rewrite sorted_Permutation).
    apply list_elem_of_join in Hin as (a & Hxa & Ha).
    apply list_elem_of_lookup in Ha as [i Hi].
    exists i, a. split; [done|]. split; [done|].
    intros j b Hj Hxb. destruct (decide (j = i)) as [|Hne]; [done|].
    exfalso. eapply (join_NoDup_disjoint parts j i b a x); eauto.
    by rewrite Hjoin.
  - intros i a Ha. unfold parts in Ha.
    rewrite list_lookup_imap in Ha.
    destruct (dests !! i); [|done]. cbn in Ha. simplify_eq.
    etrans; [apply sublist_take | apply sublist_drop].
Qed.

Lemma name_joinpath (d : Path) (n : string) : name (d / n)%path = n.
Proof. unfold name, joinpath. by rewrite last_snoc. Qed.

Lemma shard_move_exists (all_files dests : list Path) (x : Path) :
  dests ≠ [] → x ∈ shards_of all_files →
  ∃ dest, dest ∈ dests
          ∧ Rename x (dest / name x)%path
              ∈ shard_moves (sorted (shards_of all_files)) dests.
Proof.
  intros Hd Hx. set (st := sorted (shards_of all_files)).
  assert (x ∈ mjoin (assignments st dests).*2) as Hin.
  { rewrite assignments_join by done. unfold st. by rewrite sorted_Permutation. }
  apply list_elem_of_join in Hin as (a & Hxa & Ha).
  apply list_elem_of_fmap in Ha as ([d a'] & -> & Hda). cbn [snd] in Hxa.
  exists d. split.
  - rewrite <-(assignments_fst st dests). by apply (list_elem_of_fmap_2 fst _ _ Hda).
  - unfold shard_moves. apply list_elem_of_join.
    exists (moves_to d a'). split.
    + unfold moves_to.
      by apply (list_elem_of_fmap_2 (λ x, Rename x (d / name x)%path) _ _ Hxa).
    + by apply (list_elem_of_fmap_2 (λ a, moves_to a.1 a.2) _ _ Hda).
Qed.

Lemma shard_moves_sources (all_files dests : list Path) (src dst : Path) :
  dests ≠ [] →
  Rename src dst ∈ shard_moves (sorted (shards_of all_files)) dests →
  src ∈ shards_of all_files ∧ ∃ dest, dest ∈ dests ∧ dst = (dest / name src)%path.
Proof.
  intros Hd Hin. set (st := sorted (shards_of all_files)) in *.
  unfold shard_moves in Hin. apply list_elem_of_join in Hin as (ops & Hin & Hops).
  apply list_elem_of_fmap in Hops as ([d a] & -> & Hda). cbn [fst snd] in Hin.
  unfold moves_to in Hin. apply list_elem_of_fmap in Hin as (x & [= -> ->] & Hxa).
  split.
  - rewrite <-sorted_Permutation. fold st. rewrite <-(assignments_join st dests Hd).
    apply list_elem_of_join. exists a. split; [done|].
    by apply (list_elem_of_fmap_2 snd _ _ Hda).
  - exists d. split; [|done].
    rewrite <-(assignments_fst st dests). by apply (list_elem_of_fmap_2 fst _ _ Hda).
Qed.

(** C8 — non-shard routing.  On any file system, once the source is listed and
    whatever the number of further destinations [ds], [split_folder] creates
    the destinations, then moves every entry whose suffix is not
    [.safetensors] to [d0 / x.name] (the name kept), in listing order, and only
    then makes the shard moves; it stops at the first call that raises.  The
    moves of the second group are exactly the non-shard entries, those of the
    third group only shards. *)
Theorem non_shard_routing (FS : Type) (HFS : FileSystem FS) (fs : FS)
    (base d0 : Path) (ds all_files : list Path) :
  fs_iterdir base fs = Return all_files →
  split_folder base (d0 :: ds) fs
  = run_ops ((Mkdir <$> d0 :: ds)
             ++ ((λ x, Rename x (d0 / name x)%path) <$> others_of all_files)
             ++ shard_moves (sorted (shards_of all_files)) (d0 :: ds)) fs
  ∧ (∀ x, x ∈ others_of all_files ↔ x ∈ all_files ∧ suffix x ≠ ".safetensors")
  ∧ (∀ x, name (d0 / name x)%path = name x)
  ∧ (∀ src dst,
       Rename src dst ∈ shard_moves (sorted (shards_of all_files)) (d0 :: ds) →
       src ∈ all_files ∧ suffix src = ".safetensors").
Proof.
  intros Hls. split; [by apply split_folder_run|].
  split; [apply others_of_spec|]. split; [intros; apply name_joinpath|].
  intros src dst Hin.
  apply shard_moves_sources in Hin as [Hsrc _]; [|done].
  by apply shards_of_spec.
Qed.

Lemma children_fst (d : Path) (t1 t2 : Tree) :
  t1.*1 = t2.*1 → children d t1 = children d t2.
Proof. unfold children. by intros ->. Qed.

(** C10 — the partition looks at the extension only.  Take two directory
    trees with the same paths and any kinds (regular file or directory) for
    their entries, the source being a directory in both.  [split_folder] makes
    the same calls on both.  An entry of the source of either kind is moved to
    [d0] under its own name when its suffix is not [.safetensors], and is
    moved with the shards, to one of the destinations, when it is. *)
Theorem partition_by_extension (t1 t2 : Tree) (base d0 : Path)
    (ds : list Path) :
  t1.*1 = t2.*1 →
  kind_of base t1 = Some Dir →
  kind_of base t2 = Some Dir →
  ∃ all_files others_ops shard_ops,
    iterdir base t1 = Return all_files
    ∧ iterdir base t2 = Return all_files
    ∧ split_folder base (d0 :: ds) t1
      = run_ops ((Mkdir <$> d0 :: ds) ++ others_ops ++ shard_ops) t1
    ∧ split_folder base (d0 :: ds) t2
      = run_ops ((Mkdir <$> d0 :: ds) ++ others_ops ++ shard_ops) t2
    ∧ ∀ x k, (x, k) ∈ t1 → x ≠ [] → parent x = base →
        (suffix x ≠ ".safetensors" → Rename x (d0 / name x)%path ∈ others_ops)
        ∧ (suffix x = ".safetensors" →
           (x ∉ others_of all_files)
           ∧ (∃ dest, dest ∈ (d0 :: ds)
                      ∧ Rename x (dest / name x)%path ∈ shard_ops)).
Proof.
  intros Hfst Hk1 Hk2.
  exists (children base t1), (moves_to d0 (others_of (children base t1))),
    (shard_moves (sorted (shards_of (children base t1))) (d0 :: ds)).
  assert (iterdir base t1 = Return (children base t1)) as Hi1
    by (unfold iterdir; by rewrite Hk1).
  assert (iterdir base t2 = Return (children base t1)) as Hi2
    by (unfold iterdir; by rewrite Hk2, (children_fst _ _ _ Hfst)).
  split; [done|]. split; [done|].
  split; [by apply (split_folder_run (FS:=Tree))|].
  split; [by apply (split_folder_run (FS:=Tree))|].
  intros x k Hx Hne Hpar.
  assert (x ∈ children base t1) as Hch.
  { unfold children. apply list_elem_of_filter. split; [done|].
    by apply (list_elem_of_fmap_2 fst _ _ Hx). }
  split.
  - intros Hsuf. unfold moves_to.
    apply (list_elem_of_fmap_2 (λ x, Rename x (d0 / name x)%path)).
    by apply others_of_spec.
  - intros Hsuf. split; [rewrite others_of_spec; tauto|].
    apply shard_move_exists; [done|]. by apply shards_of_spec.
Qed.

Import examples.

Lemma split_balance_witness :
  fs_iterdir ["src"] (src_tree 9) = Return (src_entries 9)
  ∧ split_folder ["src"] two_volumes (src_tree 9)
    = run_ops ((Mkdir <$> two_volumes)
               ++ ((λ x, Rename x (["mnt"; "raid0"] / name x)%path)
                     <$> [["src"; "config.json"]; ["src"; "assets"];
                          ["src"; "tokenizer.json"]])
               ++ ((λ x, Rename x (["mnt"; "raid0"] / name x)%path)
                     <$> take 5 nine_shards)
               ++ ((λ x, Rename x (["mnt"; "raid1"] / name x)%path)
                     <$> drop 5 nine_shards))
        (src_tree 9).
Proof.
  assert (fs_iterdir ["src"] (src_tree 9) = Return (src_entries 9)) as Hls
    by reflexivity.
  split; [exact Hls|].
  exact (eq_trans
           (proj1 (split_balance Tree _ (src_tree 9) ["src"] ["mnt"; "raid0"]
                     [["mnt"; "raid1"]] (src_entries 9) Hls))
           eq_refl).
Defined.

Lemma split_completeness_witness :
  fs_iterdir ["src"] (src_tree 9) = Return (src_entries 9)
  ∧ NoDup (src_entries 9)
  ∧ take 5 nine_shards ++ drop 5 nine_shards = sorted (shards_of (src_entries 9))
  ∧ split_folder ["src"] two_volumes (src_tree 9)
    = run_ops ((Mkdir <$> two_volumes)
               ++ ((λ x, Rename x (["mnt"; "raid0"] / name x)%path)
                     <$> others_of (src_entries 9))
               ++ mjoin (zip_with
                           (λ dest part,
                              (λ x, Rename x (dest / name x)%path) <$> part)
                           two_volumes
                           [take 5 nine_shards; drop 5 nine_shards]))
        (src_tree 9).
Proof.
  assert (fs_iterdir ["src"] (src_tree 9) = Return (src_entries 9)) as Hls
    by reflexivity.
  assert (NoDup (src_entries 9)) as Hnd
    by (apply (bool_decide_unpack _); vm_compute; reflexivity).
  split; [exact Hls|]. split; [exact Hnd|].
  destruct (split_completeness Tree _ (src_tree 9) ["src"] ["mnt"; "raid0"]
              [["mnt"; "raid1"]] (src_entries 9) Hls Hnd)
    as (Hrun & _ & Hjoin & _).
  split.
  - exact (eq_trans eq_refl Hjoin).
  - exact (eq_trans Hrun eq_refl).
Defined.

Lemma non_shard_routing_witness :
  fs_iterdir ["src"] (src_tree 8) = Return (src_entries 8)
  ∧ split_folder ["src"] two_volumes (src_tree 8)
    = run_ops ((Mkdir <$> two_volumes)
               ++ ((λ x, Rename x (["mnt"; "raid0"] / name x)%path)
                     <$> others_of (src_entries 8))
               ++ shard_moves (sorted (shards_of (src_entries 8))) two_volumes)
        (src_tree 8).
Proof.
  assert (fs_iterdir ["src"] (src_tree 8) = Return (src_entries 8)) as Hls
    by reflexivity.
  split; [exact Hls|].
  exact (proj1 (non_shard_routing Tree _ (src_tree 8) ["src"] ["mnt"; "raid0"]
                  [["mnt"; "raid1"]] (src_entries 8) Hls)).
Defined.

Lemma partition_by_extension_witness :
  (src_tree 2).*1 = src_tree_other_kinds.*1
  ∧ kind_of ["src"] (src_tree 2) = Some Dir
  ∧ kind_of ["src"] src_tree_other_kinds = Some Dir
  ∧ ∃ ops, split_folder ["src"] two_volumes (src_tree 2)
           = run_ops ops (src_tree 2)
           ∧ split_folder ["src"] two_volumes src_tree_other_kinds
             = run_ops ops src_tree_other_kinds.
Proof.
  assert ((src_tree 2).*1 = src_tree_other_kinds.*1) as Hfst
    by (vm_compute; reflexivity).
  assert (kind_of ["src"] (src_tree 2) = Some Dir) as Hk1 by reflexivity.
  assert (kind_of ["src"] src_tree_other_kinds = Some Dir) as Hk2 by reflexivity.
  split; [exact Hfst|]. split; [exact Hk1|]. split; [exact Hk2|].
  destruct (partition_by_extension (src_tree 2) src_tree_other_kinds ["src"]
              ["mnt"; "raid0"] [["mnt"; "raid1"]] Hfst Hk1 Hk2)
    as (all_files & o1 & o2 & _ & _ & H1 & H2 & _).
  eexists. split; [exact H1 | exact H2].
Defined.

(** Scenario 1 of the specification: eight shards, two configuration files
    (and here a subdirectory), two destinations. *)
Example scenario_eight_shards :
  split_folder ["src"] two_volumes (src_tree 8)
  = ([(["src"], Dir);
      (["mnt"; "raid0"; "config.json"], File);
      (["mnt"; "raid0"; "assets"], Dir);
      (["mnt"; "raid0"; "assets"; "logo.png"], File);
      (["mnt"; "raid1"; shard_name 8], File);
      (["mnt"; "raid1"; shard_name 7], File);
      (["mnt"; "raid1"; shard_name 6], File);
      (["mnt"; "raid1"; shard_name 5], File);
      (["mnt"; "raid0"; shard_name 4], File);
      (["mnt"; "raid0"; shard_name 3], File);
      (["mnt"; "raid0"; shard_name 2], File);
      (["mnt"; "raid0"; shard_name 1], File);
      (["mnt"; "raid0"; "tokenizer.json"], File);
      (["mnt"], Dir); (["mnt"; "raid0"], Dir); (["mnt"; "raid1"], Dir)],
     Return tt).
Proof. vm_compute. reflexivity. Qed.

(** Scenario 2: nine shards, two destinations: five and four. *)
Example scenario_nine_shards :
  (assignments nine_shards two_volumes).*2
  = [take 5 nine_shards; drop 5 nine_shards].
Proof. vm_compute. reflexivity. Qed.

(** Fewer shards than destinations: the last destinations get nothing, and
    nothing raises. *)
Example scenario_more_destinations_than_shards :
  (assignments (take 2 nine_shards) [["a"]; ["b"]; ["c"]; ["d"]]).*2
  = [take 1 nine_shards; take 1 (drop 1 nine_shards); []; []]
  ∧ (split_folder ["src"] [["a"]; ["b"]; ["c"]; ["d"]] (src_tree 2)).2
    = Return tt.
Proof. split; vm_compute; reflexivity. Qed.

(** A directory whose name ends in [.safetensors] is split with the shards. *)
Example scenario_directory_shard :
  (split_folder ["src"] two_volumes src_tree_other_kinds).1
  = [(["src"], Dir);
     (["mnt"; "raid0"; "config.json"], Dir);
     (["mnt"; "raid0"; "assets"], Dir);
     (["mnt"; "raid0"; "assets"; "logo.png"], File);
     (["mnt"; "raid1"; shard_name 2], File);
     (["mnt"; "raid0"; shard_name 1], Dir);
     (["mnt"; "raid0"; "tokenizer.json"], File);
     (["mnt"], Dir); (["mnt"; "raid0"], Dir); (["mnt"; "raid1"], Dir)].
Proof. vm_compute. reflexivity. Qed.

(** ** The harness *)
Module harness_facts.
Import full_concept.

Lemma print_run (line : text) (out : list text) :
  print line out = (out ++ [line], Return tt).
Proof. done. Qed.

(** *** The worker loop *)

Lemma load_loop_spec (w : World) (id : nat) (files : list string) :
  ∀ i results ts tt results' ts' tt',
    load_loop w id i files results ts tt = Return (results', ts', tt') →
    ∃ new, results' = results ++ new
           ∧ file <$> new = files
           ∧ ts' = fold_left PrimFloat.add (size <$> new) ts
           ∧ tt' = fold_left PrimFloat.add (time <$> new) tt.
Proof.
  induction files as [|f files IH]; intros i results ts tt results' ts' tt' Hrun.
  - cbn in Hrun. simplify_eq. exists []. by rewrite app_nil_r.
  - cbn [load_loop] in Hrun. unfold_M.
    destruct (load_file w f) as [vs|e]; [|done].
    destruct (force_load vs 0) as [sz|e]; [|done].
    destruct (shard_number f) as [n|e]; [|done].
    apply IH in Hrun as (new & -> & Hfiles & -> & ->).
    eexists (_ :: new). rewrite <-app_assoc. split; [done|].
    cbn. by rewrite Hfiles.
Qed.

Lemma load_loop_returns (w : World) (id : nat) (files : list string) :
  Forall (λ f, is_Return (shard_outcome w f) = true) files →
  ∀ i results ts tt, ∃ r, load_loop w id i files results ts tt = Return r.
Proof.
  induction 1 as [|f files Hf _ IH]; intros i results ts tt; [by eexists|].
  cbn [load_loop]. revert Hf. unfold shard_outcome. unfold_M.
  destruct (load_file w f) as [vs|e]; [|done].
  destruct (force_load vs 0) as [sz|e]; [|done].
  destruct (shard_number f) as [n|e]; [|done].
  intros _. apply IH.
Qed.

Lemma load_loop_raise (w : World) (id : nat) (pre post : list string)
    (f : string) (e : exn) :
  Forall (λ f, is_Return (shard_outcome w f) = true) pre →
  shard_outcome w f = Raise e →
  ∀ i results ts tt,
    load_loop w id i (pre ++ f :: post) results ts tt = Raise e.
Proof.
  intros Hpre Hf. induction Hpre as [|g pre Hg _ IH]; intros i results ts tt.
  - cbn [app load_loop]. revert Hf. unfold shard_outcome. unfold_M.
    destruct (load_file w f) as [vs|e']; [|by intros [= ->]].
    destruct (force_load vs 0) as [sz|e']; [|by intros [= ->]].
    destruct (shard_number f) as [n|e']; [done|by intros [= ->]].
  - cbn [app load_loop]. revert Hg. unfold shard_outcome. unfold_M.
    destruct (load_file w g) as [vs|e']; [|done].
    destruct (force_load vs 0) as [sz|e']; [|done].
    destruct (shard_number g) as [n|e']; [|done].
    intros _. apply IH.
Qed.

(** A file whose iteration raises keeps the loop from returning. *)
Lemma load_loop_no_result (w : World) (id : nat) (files : list string)
    (f : string) :
  f ∈ files → is_Return (shard_outcome w f) = false →
  ∀ i results ts tt, is_Return (load_loop w id i files results ts tt) = false.
Proof.
  intros Hin Hf. induction files as [|g files IH]; intros i results ts tt.
  - by apply elem_of_nil in Hin.
  - cbn [load_loop]. revert Hf. unfold shard_outcome. unfold_M. intros Hf.
    apply elem_of_cons in Hin as [<-|Hin].
    + revert Hf. destruct (load_file w f) as [vs|e']; [|done].
      destruct (force_load vs 0) as [sz|e']; [|done].
      by destruct (shard_number f) as [n|e'].
    + destruct (load_file w g) as [vs|e']; [|done].
      destruct (force_load vs 0) as [sz|e']; [|done].
      destruct (shard_number g) as [n|e']; [|done].
      by apply IH.
Qed.

Lemma load_raid_shards_totals (w : World) args (r : WorkerResult) :
  load_raid_shards w args = Return r →
  file <$> shards r = args.1.1
  ∧ total_size r = py_sum (size <$> shards r)
  ∧ total_time r = py_sum (time <$> shards r).
Proof.
  destruct args as [[files raid] id]. unfold load_raid_shards. unfold_M.
  destruct (load_loop _ _ _ _ _ _ _) as [[[results ts] tt]|e] eqn:Hrun; [|done].
  intros [= <-]. apply load_loop_spec in Hrun as (new & -> & Hf & -> & ->).
  done.
Qed.

(** The worker's outcome depends on the files of its own list and on its own
    clock only. *)
Lemma load_loop_local (w w' : World) (id : nat) (files : list string) :
  (∀ f, f ∈ files → load_file w f = load_file w' f) →
  (∀ k, time_time w id k = time_time w' id k) →
  ∀ i results ts tt,
    load_loop w id i files results ts tt = load_loop w' id i files results ts tt.
Proof.
  intros Hload Hclock. induction files as [|f files IH]; intros i results ts tt.
  - done.
  - cbn [load_loop]. rewrite <-(Hload f) by left. rewrite !Hclock.
    unfold_M. destruct (load_file w f) as [vs|e]; [|done].
    destruct (force_load vs 0) as [sz|e]; [|done].
    destruct (shard_number f) as [n|e]; [|done].
    apply IH. intros g Hg. apply Hload. by right.
Qed.

(** *** Values that are not tensors *)

Lemma force_load_filter (vs : list value) (acc : Z) :
  force_load (filter (λ v, is_tensor v = true) vs) acc = force_load vs acc.
Proof.
  revert acc. induction vs as [|[n es m|] vs IH]; intros acc.
  - done.
  - rewrite filter_cons_True by done. cbn. unfold_M.
    destruct m; [apply IH | done].
  - rewrite filter_cons_False by done. apply IH.
Qed.

Lemma load_loop_without_non_tensors (w : World) (id : nat) (files : list string) :
  ∀ i results ts tt,
    load_loop (without_non_tensors w) id i files results ts tt
    = load_loop w id i files results ts tt.
Proof.
  induction files as [|f files IH]; intros i results ts tt; [done|].
  cbn [load_loop without_non_tensors load_file time_time]. unfold_M.
  destruct (load_file w f) as [vs|e]; [|done].
  rewrite force_load_filter.
  destruct (force_load vs 0) as [sz|e]; [|done].
  destruct (shard_number f) as [n|e]; [|done].
  apply IH.
Qed.

End harness_facts.

Import full_concept harness_facts.

Lemma fold_max_step_in {A} (ltb : A → A → bool) (l : list A) (x : A) :
  fold_left (max_step ltb) l x ∈ x :: l.
Proof.
  revert x. induction l as [|y l IH]; intros x; cbn [fold_left]; [by left|].
  specialize (IH (max_step ltb x y)). unfold max_step in *.
  destruct (ltb x y); [by right|].
  apply elem_of_cons in IH as [->|IH]; [by left | by do 2 right].
Qed.

(** *** The order of floats

    [<] on floats is a strict order in which a NaN is below and above
    nothing. *)
Ltac sf_order :=
  unfold SFltb, SFleb, SFcompare;
  repeat match goal with
         | |- ∀ f : spec_float, _ => intros [[]|[]| |[] ? ?]
         end;
  cbv beta iota;
  change (PosDef.Pos.compare_cont Eq) with Pos.compare;
  repeat match goal with
         | |- context [(?a ?= ?b)%Z] =>
             destruct (Z.compare_spec a b); cbv beta iota
         | |- context [(?a ?= ?b)%positive] =>
             destruct (Pos.compare_spec a b); cbv beta iota
         end;
  cbn [CompOpp];
  first [ done | lia
        | intros;
          first [ done | lia | by left | by right; left | by do 2 right ] ].

Lemma SFltb_irrefl (a : spec_float) : SFltb a a = false.
Proof. revert a. sf_order. Qed.

Lemma SFltb_trans (a b c : spec_float) :
  SFltb a b = true → SFltb b c = true → SFltb a c = true.
Proof. revert a b c. sf_order. Qed.

Lemma SFltb_cotrans (a b c : spec_float) :
  SFltb a c = true → SFltb a b = true ∨ SFltb b c = true ∨ b = S754_nan.
Proof. revert a b c. sf_order. Qed.

Lemma SFleb_not_ltb (a b : spec_float) :
  a ≠ S754_nan → b ≠ S754_nan → SFltb a b = false → SFleb b a = true.
Proof. revert a b. sf_order. Qed.

Lemma is_nan_Prim2SF (x : float) :
  PrimFloat.is_nan x = false → Prim2SF x ≠ S754_nan.
Proof.
  unfold PrimFloat.is_nan. rewrite FloatAxioms.eqb_spec. intros Hx Hnan.
  by rewrite Hnan in Hx.
Qed.

(** [max] where an element may be comparable to nothing, as a NaN is: once
    the running maximum is such an element it stays. *)
Lemma fold_max_step_top {A} (ltb : A → A → bool) (l : list A) (x : A) :
  (∀ d, ltb x d = false) → fold_left (max_step ltb) l x = x.
Proof.
  intros Hx. induction l as [|z l IH]; [done|].
  cbn [fold_left]. unfold max_step at 2. by rewrite Hx.
Qed.

Lemma fold_max_step_bound {A} (ltb : A → A → bool) (l : list A) :
  (∀ a, ltb a a = false) →
  (∀ a b c, ltb a b = true → ltb b c = true → ltb a c = true) →
  (∀ a b c, ltb a c = true →
            ltb a b = true ∨ ltb b c = true ∨ ∀ d, ltb b d = false) →
  ∀ x y, y ∈ x :: l → ltb (fold_left (max_step ltb) l x) y = false.
Proof.
  intros Hirr Htrans Hco.
  induction l as [|z l IH]; intros x y Hy; cbn [fold_left].
  - apply list_elem_of_singleton in Hy as ->. apply Hirr.
  - replace (max_step ltb x z) with (if ltb x z then z else x) by done.
    destruct (ltb x z) eqn:Hxz.
    + apply elem_of_cons in Hy as [->|Hy]; [|by apply IH].
      destruct (ltb (fold_left (max_step ltb) l z) x) eqn:E; [|done].
      pose proof (IH z z ltac:(left)) as Hz.
      by rewrite (Htrans _ _ _ E Hxz) in Hz.
    + apply elem_of_cons in Hy as [->|Hy]; [apply IH; by left|].
      apply elem_of_cons in Hy as [->|Hy]; [|apply IH; by right].
      destruct (ltb (fold_left (max_step ltb) l x) z) eqn:E; [|done].
      pose proof (IH x x ltac:(left)) as Hx.
      destruct (Hco _ x _ E) as [E'|[E'|Htop]]; [congruence..|].
      rewrite (fold_max_step_top ltb l x Htop) in E. congruence.
Qed.

(** No element of a list of floats is greater than its [max], and when no
    element is a NaN every element is at most its [max]. *)
Lemma float_max_bound (l : list float) (x y : float) :
  y ∈ x :: l →
  (fold_left (max_step PrimFloat.ltb) l x <? y)%float = false
  ∧ (Forall (λ z, PrimFloat.is_nan z = false) (x :: l) →
     (y <=? fold_left (max_step PrimFloat.ltb) l x)%float = true).
Proof.
  intros Hy.
  assert ((fold_left (max_step PrimFloat.ltb) l x <? y)%float = false) as Hlt.
  { apply fold_max_step_bound; [| | |done].
    - intros a. rewrite ltb_spec. apply SFltb_irrefl.
    - intros a b c. rewrite !ltb_spec. apply SFltb_trans.
    - intros a b c. rewrite !ltb_spec. intros Hac.
      destruct (SFltb_cotrans _ (Prim2SF b) _ Hac) as [?|[?|Hnan]]; auto.
      do 2 right. intros d. rewrite ltb_spec, Hnan. done. }
  split; [done|]. intros Hnan.
  rewrite leb_spec. apply SFleb_not_ltb.
  - apply is_nan_Prim2SF.
    apply (proj1 (Forall_forall _ _) Hnan), fold_max_step_in.
  - apply is_nan_Prim2SF. by apply (proj1 (Forall_forall _ _) Hnan).
  - by rewrite <-ltb_spec.
Qed.

Lemma truediv_nonzero (x y : float) :
  PrimFloat.is_zero y = false → truediv x y = Return (x / y)%float.
Proof. unfold truediv. by intros ->. Qed.

Lemma volume_lines_run (results : list WorkerResult) (out : list text) :
  Forall (λ r, PrimFloat.is_zero (total_time r) = false) results →
  for_ results (λ r,
    speed ← lift (truediv (total_size r) (total_time r));
    print [Str (raid_name r); Str ": "; F2 (total_size r);
           Str " GB at "; F2 speed; Str " GB/s"]) out
  = (out ++ ((λ r, [Str (raid_name r); Str ": "; F2 (total_size r);
                    Str " GB at "; F2 (total_size r / total_time r)%float;
                    Str " GB/s"]) <$> results),
     Return tt).
Proof.
  intros Hnz. revert out. induction Hnz as [|r results Hr _ IH]; intros out.
  - cbn. by rewrite app_nil_r.
  - cbn [for_ fmap list_fmap]. unfold_M.
    rewrite (truediv_nonzero _ _ Hr). cbn. rewrite IH.
    by rewrite <-app_assoc.
Qed.

(** C3 — aggregate arithmetic.  For every non-empty list of worker results
    whose total durations are not zero, the overall statistics print: for each
    volume its own total size divided by its own total duration (a function of
    that result alone); the combined size, which is the sum of the workers'
    total sizes, added left to right from [0]; the wall-clock duration, which
    is the maximum of the workers' total durations: it is one of them, none of
    them is greater, and every one of them is at most it when none is a NaN;
    and the effective rate, the combined size divided by that maximum.
    Whatever a worker returns, its total size and total duration are the sums
    of the sizes and of the durations of its per-shard entries, in shard
    order. *)
Theorem aggregate_arithmetic (results : list WorkerResult) (out : list text) :
  results ≠ [] →
  Forall (λ r, PrimFloat.is_zero (total_time r) = false) results →
  ∃ max_time,
    py_max PrimFloat.ltb (total_time <$> results) = Return max_time
    ∧ max_time ∈ total_time <$> results
    ∧ (∀ r, r ∈ results → (max_time <? total_time r)%float = false)
    ∧ (Forall (λ r, PrimFloat.is_nan (total_time r) = false) results →
       ∀ r, r ∈ results → (total_time r <=? max_time)%float = true)
    ∧ overall_statistics results out
      = (out ++ [[Str newline; Str "Overall Statistics:"]]
             ++ ((λ r, [Str (raid_name r); Str ": "; F2 (total_size r);
                        Str " GB at "; F2 (total_size r / total_time r)%float;
                        Str " GB/s"]) <$> results)
             ++ [[Str "Combined Data Loaded: ";
                  F2 (fold_left PrimFloat.add (total_size <$> results) 0%float);
                  Str " GB"];
                 [Str "Total Time: "; F2 max_time; Str " seconds"];
                 [Str "Effective Speed: ";
                  F2 (fold_left PrimFloat.add (total_size <$> results) 0
                                / max_time)%float;
                  Str " GB/s"]],
         Return tt)
    ∧ ∀ w args r,
        load_raid_shards w args = Return r →
        total_size r = fold_left PrimFloat.add (size <$> shards r) 0%float
        ∧ total_time r = fold_left PrimFloat.add (time <$> shards r) 0%float.
Proof.
  intros Hne Hnz. destruct results as [|r0 results]; [done|].
  set (rs := r0 :: results) in *.
  set (m := fold_left (max_step PrimFloat.ltb) (total_time <$> results)
              (total_time r0)).
  assert (m ∈ total_time <$> rs) as Hin by apply fold_max_step_in.
  assert (PrimFloat.is_zero m = false) as Hm.
  { apply list_elem_of_fmap in Hin as (r & -> & Hr).
    by apply (proj1 (Forall_forall _ _) Hnz). }
  assert (∀ r, r ∈ rs → total_time r ∈ total_time r0 :: (total_time <$> results))
    as Hmem by (intros r Hr; by apply (list_elem_of_fmap_2 total_time rs r)).
  exists m. split; [done|]. split; [done|].
  split; [|split; [|split]].
  - intros r Hr. by apply float_max_bound, Hmem.
  - intros Hnan r Hr. apply float_max_bound; [by apply Hmem|].
    change (total_time r0 :: (total_time <$> results))
      with (total_time <$> rs).
    by apply Forall_fmap.
  - unfold overall_statistics.
    replace (py_max PrimFloat.ltb (total_time <$> rs)) with (Return m) by done.
    unfold_M. rewrite print_run, (volume_lines_run rs _ Hnz), !print_run.
    rewrite (truediv_nonzero _ _ Hm), print_run.
    by rewrite <-!app_assoc.
  - intros w args r Hr. by apply load_raid_shards_totals in Hr as (_ & ? & ?).
Qed.

Lemma aggregate_arithmetic_witness :
  three_results ≠ []
  ∧ Forall (λ r, PrimFloat.is_zero (total_time r) = false) three_results
  ∧ Forall (λ r, (total_time r <=? 8)%float = true) three_results
  ∧ overall_statistics three_results []
    = ([[Str newline; Str "Overall Statistics:"];
        [Str "RAID0"; Str ": "; F2 4; Str " GB at "; F2 2; Str " GB/s"];
        [Str "RAID1"; Str ": "; F2 4; Str " GB at "; F2 0.5; Str " GB/s"];
        [Str "RAID2"; Str ": "; F2 8; Str " GB at "; F2 2; Str " GB/s"];
        [Str "Combined Data Loaded: "; F2 16; Str " GB"];
        [Str "Total Time: "; F2 8; Str " seconds"];
        [Str "Effective Speed: "; F2 2; Str " GB/s"]], Return tt).
Proof.
  assert (three_results ≠ []) as Hne by discriminate.
  assert (Forall (λ r, PrimFloat.is_zero (total_time r) = false) three_results)
    as Hnz by (repeat constructor).
  assert (Forall (λ r, PrimFloat.is_nan (total_time r) = false) three_results)
    as Hnan by (repeat constructor).
  split; [exact Hne|]. split; [exact Hnz|].
  destruct (aggregate_arithmetic three_results [] Hne Hnz)
    as (m & Hmax & _ & _ & Hle & Hrun & _).
  injection Hmax as <-. split; [|exact Hrun].
  apply Forall_forall. exact (Hle Hnan).
Defined.

(** C7, as stated, fails: with a value of an unexpected type in every shard
    the worker raises nothing. *)
Lemma non_tensor_counterexample :
  ¬ ∃ e, load_raid_shards non_tensor_world (raid0_files, "RAID0", 0) = Raise e.
Proof. intros [e He]. vm_compute in He. discriminate He. Qed.

(** C7 — amended.  A value that is not a [torch.Tensor] is skipped silently:
    wherever it stands among the values of a shard it raises nothing and adds
    no byte, and the worker's outcome (result or exception) is the one it has
    in the world where such values do not exist. *)
Theorem non_tensor_values_skipped :
  (∀ vs1 vs2 acc,
     force_load (vs1 ++ NotTensor :: vs2) acc = force_load (vs1 ++ vs2) acc)
  ∧ (∀ w args,
       load_raid_shards w args = load_raid_shards (without_non_tensors w) args).
Proof.
  split.
  - intros vs1 vs2 acc. rewrite <-(force_load_filter (vs1 ++ vs2)).
    rewrite <-(force_load_filter (vs1 ++ _ :: _)).
    by rewrite !filter_app, filter_cons_False.
  - intros w [[files raid] id]. unfold load_raid_shards.
    by rewrite load_loop_without_non_tensors.
Qed.

(** What the worker returns in that world: full sizes, no error. *)
Example non_tensor_world_result :
  ∃ r, load_raid_shards non_tensor_world (raid0_files, "RAID0", 0) = Return r
       ∧ file <$> shards r = raid0_files
       ∧ size <$> shards r = replicate 8 0.5%float
       ∧ total_size r = 4%float.
Proof. eexists. vm_compute. repeat split; reflexivity. Qed.

(** *** Shard numbers *)

Lemma split_no_sep (sep : ascii) (s : string) :
  sep ∉ list_ascii_of_string s → split sep s = [s].
Proof.
  induction s as [|a s IH]; cbn; [done|]. intros Hnot.
  destruct (Ascii.eqb_spec a sep) as [->|Hne].
  - exfalso. apply Hnot. by left.
  - rewrite IH; [done|]. intros Hin. apply Hnot. by right.
Qed.

Lemma shard_number_class (f : string) (e : exn) :
  shard_number f = Raise e → exn_cls e = IndexError ∨ exn_cls e = ValueError.
Proof.
  unfold shard_number, getitem, py_int. unfold_M.
  destruct (split "-" _ !! 1) as [c|]; [|intros [= <-]; by left].
  destruct (int_literal c); [done|]. intros [= <-]. by right.
Qed.

Lemma no_shard_number_raises (f : string) :
  no_shard_number f → is_Return (shard_number f) = false.
Proof.
  unfold no_shard_number, shard_number, getitem, py_int. unfold_M.
  intros [Hdash|(c & -> & ->)]; [|done].
  by rewrite (split_no_sep _ _ Hdash).
Qed.

Lemma comprehension_no_result {A B} (f : A → Result B) (l : list A) (x : A) :
  x ∈ l → is_Return (f x) = false → is_Return (comprehension f l) = false.
Proof.
  intros Hin Hx. induction l as [|y l IH]; [by apply elem_of_nil in Hin|].
  cbn [comprehension]. unfold_M.
  apply elem_of_cons in Hin as [<-|Hin].
  - by destruct (f x).
  - destruct (f y); [|done]. specialize (IH Hin).
    by destruct (comprehension f l).
Qed.

Lemma comprehension_raise {A B} (f : A → Result B) (l : list A) (e : exn) :
  comprehension f l = Raise e → ∃ x, x ∈ l ∧ f x = Raise e.
Proof.
  induction l as [|y l IH]; [done|]. cbn [comprehension]. unfold_M.
  destruct (f y) as [b|e'] eqn:Hy.
  - destruct (comprehension f l) as [bs|e'']; [done|].
    intros [= ->]. destruct (IH eq_refl) as (x & Hx & Hfx).
    exists x. split; [by right | done].
  - intros [= ->]. exists y. split; [by left | done].
Qed.

Lemma load_loop_raise_class (w : World) (id : nat) (files : list string) :
  (∀ g, g ∈ files →
        ∃ vs sz, load_file w g = Return vs ∧ force_load vs 0 = Return sz) →
  ∀ i results ts tt e,
    load_loop w id i files results ts tt = Raise e →
    exn_cls e = IndexError ∨ exn_cls e = ValueError.
Proof.
  induction files as [|f files IH]; intros Hok i results ts tt e; [done|].
  cbn [load_loop]. unfold_M.
  destruct (Hok f ltac:(left)) as (vs & sz & -> & ->).
  destruct (shard_number f) as [n|e'] eqn:Hn.
  - apply IH. intros g Hg. apply Hok. by right.
  - intros [= ->]. by eapply shard_number_class.
Qed.

(** C9, as stated, fails: the second component of this file name is a space
    followed by a digit, which is no string of decimal digits, and [int]
    accepts it; the worker returns a result for the file. *)
Lemma shard_number_counterexample :
  split "-" (name (path_of_str "/mnt/raid0/model- 7-of-16.safetensors")) !! 1
  = Some " 7"
  ∧ digit_string " 7" = false
  ∧ shard_number "/mnt/raid0/model- 7-of-16.safetensors" = Return 7%Z
  ∧ ∃ r, load_raid_shards healthy_world
           (["/mnt/raid0/model- 7-of-16.safetensors"], "RAID0", 0) = Return r
         ∧ shard <$> shards r = [7%Z].
Proof.
  split; [reflexivity|]. split; [reflexivity|]. split; [reflexivity|].
  eexists. vm_compute. split; reflexivity.
Qed.

(** C9 — amended.  Shard numbers are not validated.  Take a file name without
    ['-'], or whose second component between ['-'] is not an integer literal
    of [int] (digits, with single underscores allowed between them, an
    optional sign and surrounding white space).  Taking its shard number
    raises [IndexError] or [ValueError].  A worker whose list holds the file
    returns no result, and when every read succeeds the exception is one of
    these two.  [get_weight_files] with the file on either volume raises one
    of the two and returns nothing. *)
Theorem shard_number_unvalidated (f : string) :
  no_shard_number f →
  (raises (shard_number f) IndexError ∨ raises (shard_number f) ValueError)
  ∧ (∀ w files raid id,
       f ∈ files →
       is_Return (load_raid_shards w (files, raid, id)) = false)
  ∧ (∀ w files raid id,
       f ∈ files →
       (∀ g, g ∈ files →
             ∃ vs sz, load_file w g = Return vs ∧ force_load vs 0 = Return sz) →
       raises (load_raid_shards w (files, raid, id)) IndexError
       ∨ raises (load_raid_shards w (files, raid, id)) ValueError)
  ∧ (∀ w dir1 dir2 out,
       f ∈ glob w dir1 ".safetensors" ∨ f ∈ glob w dir2 ".safetensors" →
       ∃ out' e, get_weight_files w dir1 dir2 out = (out', Raise e)
                 ∧ (exn_cls e = IndexError ∨ exn_cls e = ValueError)).
Proof.
  intros Hbad. pose proof (no_shard_number_raises f Hbad) as Hf.
  assert (∀ A (r : Result A) e,
            r = Raise e → exn_cls e = IndexError ∨ exn_cls e = ValueError →
            raises r IndexError ∨ raises r ValueError) as Hcls.
  { intros A r [c msg] -> [Hc|Hc]; cbn in Hc; subst c;
      [left | right]; by exists msg. }
  assert (∀ w, is_Return (shard_outcome w f) = false) as Hout.
  { intros w. unfold shard_outcome. unfold_M.
    destruct (load_file w f); [|done]. destruct (force_load _ _); [|done].
    by destruct (shard_number f). }
  split; [|split; [|split]].
  - destruct (shard_number f) as [n|e] eqn:Hn; [done|].
    eapply Hcls; [done|]. by eapply shard_number_class.
  - intros w files raid id Hin. unfold load_raid_shards. unfold_M.
    pose proof (load_loop_no_result w id files f Hin (Hout w) 0 [] 0%float
                  0%float) as Hno.
    by destruct (load_loop _ _ _ _ _ _ _) as [[[??]?]|?].
  - intros w files raid id Hin Hok. unfold load_raid_shards. unfold_M.
    pose proof (load_loop_no_result w id files f Hin (Hout w) 0 [] 0%float
                  0%float) as Hno.
    destruct (load_loop _ _ _ _ _ _ _) as [[[??]?]|e] eqn:Hrun; [done|].
    eapply Hcls; [done|]. by eapply load_loop_raise_class.
  - intros w dir1 dir2 out Hin. unfold get_weight_files.
    case_bool_decide as Hcount; [unfold throw; eauto|].
    unfold_M.
    destruct (comprehension shard_number (sorted_str (glob w dir1 _)))
      as [ns1|e] eqn:H1.
    + destruct (comprehension shard_number (sorted_str (glob w dir2 _)))
        as [ns2|e] eqn:H2.
      * exfalso. destruct Hin as [Hin|Hin].
        -- eapply (comprehension_no_result shard_number) in Hf;
             [by rewrite H1 in Hf|].
           unfold sorted_str. by rewrite merge_sort_Permutation.
        -- eapply (comprehension_no_result shard_number) in Hf;
             [by rewrite H2 in Hf|].
           unfold sorted_str. by rewrite merge_sort_Permutation.
      * exists out, e. split; [done|].
        apply comprehension_raise in H2 as (x & _ & Hx).
        by eapply shard_number_class.
    + exists out, e. split; [done|].
      apply comprehension_raise in H1 as (x & _ & Hx).
      by eapply shard_number_class.
Qed.

Lemma shard_number_unvalidated_witness :
  no_shard_number "/mnt/raid0/model_00001.safetensors"
  ∧ raises (shard_number "/mnt/raid0/model_00001.safetensors") IndexError.
Proof.
  assert (no_shard_number "/mnt/raid0/model_00001.safetensors") as Hbad.
  { left. apply (bool_decide_unpack _). vm_compute. reflexivity. }
  split; [exact Hbad|].
  destruct (proj1 (shard_number_unvalidated _ Hbad)) as [H|[msg H]].
  - exact H.
  - vm_compute in H. discriminate H.
Defined.

(** File names that follow the pattern do have a shard number, and [int]
    takes more than plain digit strings. *)
Example shard_number_examples :
  shard_number "/mnt/raid0/model-00007-of-00016.safetensors" = Return 7%Z
  ∧ shard_number "model-1_0-x" = Return 10%Z
  ∧ shard_number "model- +5 -x" = Return 5%Z
  ∧ raises (shard_number "model-00001.safetensors") ValueError
  ∧ raises (shard_number "model--1") ValueError
  ∧ raises (shard_number "weights.safetensors") IndexError.
Proof. repeat split; vm_compute; eauto. Qed.

(** *** The pool and the entry point *)

Lemma first_failure_raise {B} (arrival : list nat) (outcomes : list (Result B))
    (e : exn) :
  first_failure arrival outcomes = Some e → Raise e ∈ outcomes.
Proof.
  unfold first_failure. intros Hhead.
  assert (e ∈ omap (λ i, match outcomes !! i with
                         | Some (Raise e) => Some e
                         | _ => None
                         end) arrival) as Hin.
  { destruct (omap _ arrival); [done|]. cbn in Hhead. simplify_eq. by left. }
  apply list_elem_of_omap in Hin as (i & _ & Hi).
  destruct (outcomes !! i) as [[b|e']|] eqn:Hlk; simplify_eq.
  by eapply list_elem_of_lookup_2.
Qed.

Lemma pool_map_raise {A B} (arrival : list nat) (f : A → Result B)
    (args : list A) (e : exn) :
  pool_map arrival f args = Raise e → ∃ a, a ∈ args ∧ f a = Raise e.
Proof.
  unfold pool_map.
  destruct (comprehension id (f <$> args)) as [rs|e0] eqn:Hall; [done|].
  intros [= <-].
  assert (Raise (default e0 (first_failure arrival (f <$> args))) ∈ f <$> args)
    as Hin.
  { destruct (first_failure _ _) as [e|] eqn:Hff; cbn.
    - by eapply first_failure_raise.
    - apply comprehension_raise in Hall as (x & Hx & Hid).
      cbn in Hid. by subst x. }
  apply list_elem_of_fmap in Hin as (a & Ha & Hin). eauto.
Qed.

Lemma pool_map_no_result {A B} (arrival : list nat) (f : A → Result B)
    (args : list A) (a : A) :
  a ∈ args → is_Return (f a) = false →
  is_Return (pool_map arrival f args) = false.
Proof.
  intros Hin Ha. unfold pool_map.
  pose proof (comprehension_no_result id (f <$> args) (f a)
                (list_elem_of_fmap_2 f _ _ Hin) Ha) as Hno.
  by destruct (comprehension id (f <$> args)).
Qed.

Lemma measure_run (w : World) (dir1 dir2 : string) (out : list text) :
  measure_split_transfer_speed w dir1 dir2 out
  = match measure_try_block w dir1 dir2 (out ++ [banner dir1 dir2]) with
    | (out1, Return _) => (out1, Return tt)
    | (out1, Raise e) => (out1 ++ [error_line e], Return tt)
    end.
Proof.
  unfold measure_split_transfer_speed. unfold_M. rewrite print_run.
  by destruct (measure_try_block _ _ _ _) as [out1 [[]|e]].
Qed.

Lemma split_folder_listing_raises (FS : Type) (HFS : FileSystem FS) (fs : FS)
    (base : Path) (dests : list Path) (e : exn) :
  fs_iterdir base fs = Raise e → split_folder base dests fs = (fs, Raise e).
Proof.
  intros Hls. unfold split_folder, ls_file_exts, ls. unfold_M. by rewrite Hls.
Qed.

Lemma measure_worker_failure (w : World) (dir1 dir2 : string)
    (out out1 : list text) (files1 files2 : list string) :
  get_weight_files w dir1 dir2 (out ++ [banner dir1 dir2])
  = (out1, Return (files1, files2)) →
  is_Return (load_raid_shards w (files1, "RAID0", 0)) = false
  ∨ is_Return (load_raid_shards w (files2, "RAID1", 1)) = false →
  ∃ e, (load_raid_shards w (files1, "RAID0", 0) = Raise e
        ∨ load_raid_shards w (files2, "RAID1", 1) = Raise e)
       ∧ measure_split_transfer_speed w dir1 dir2 out
         = (out1 ++ announcement ++ [error_line e], Return tt).
Proof.
  intros Hfiles Hfail. rewrite measure_run. unfold measure_try_block.
  unfold_M. rewrite Hfiles, !print_run.
  set (args := [(files1, "RAID0", 0); (files2, "RAID1", 1)]).
  assert (is_Return (pool_map (arrival w) (load_raid_shards w) args) = false)
    as Hno.
  { destruct Hfail as [H|H];
      (eapply pool_map_no_result; [|exact H]); unfold args;
      [by left | by right; left]. }
  destruct (pool_map _ _ args) as [rs|e] eqn:Hpool; [done|].
  exists e. split.
  - apply pool_map_raise in Hpool as (a & Ha & He). unfold args in Ha.
    apply elem_of_cons in Ha as [->|Ha]; [by left|].
    apply list_elem_of_singleton in Ha as ->. by right.
  - unfold announcement. by rewrite <-!app_assoc.
Qed.

(** C4, as stated, fails: when the third shard of the first volume cannot be
    read, the worker of that volume returns no result at all, so none that
    reports two completed shards. *)
Lemma partial_result_counterexample :
  ¬ ∃ r, load_raid_shards read_failure_world (raid0_files, "RAID0", 0)
         = Return r
         ∧ length (shards r) = 2.
Proof. intros (r & Hr & _). vm_compute in Hr. discriminate Hr. Qed.

(** C4 — amended.  Suppose the shard-count check passed and a worker raises.
    Then the entry point prints no statistics of either volume: after the
    lines of [get_weight_files] and the announcement it prints the error line
    of a failed worker and returns.  A worker whose read of a shard raises
    after the shards before it were processed raises that exception and
    returns nothing, the completed shards included.  And the outcome of a
    worker is the same in any world that agrees on the files of its own list
    and on its own clock: a failure on another volume does not change it. *)
Theorem worker_failure_discards_run (w : World) (dir1 dir2 : string)
    (out out1 : list text) (files1 files2 : list string) :
  get_weight_files w dir1 dir2 (out ++ [banner dir1 dir2])
  = (out1, Return (files1, files2)) →
  is_Return (load_raid_shards w (files1, "RAID0", 0)) = false
  ∨ is_Return (load_raid_shards w (files2, "RAID1", 1)) = false →
  (∃ e, (load_raid_shards w (files1, "RAID0", 0) = Raise e
         ∨ load_raid_shards w (files2, "RAID1", 1) = Raise e)
        ∧ measure_split_transfer_speed w dir1 dir2 out
          = (out1 ++ announcement ++ [error_line e], Return tt))
  ∧ (∀ pre f post raid id e,
       Forall (λ g, is_Return (shard_outcome w g) = true) pre →
       load_file w f = Raise e →
       load_raid_shards w (pre ++ f :: post, raid, id) = Raise e)
  ∧ (∀ w' files raid id,
       (∀ f, f ∈ files → load_file w f = load_file w' f) →
       (∀ k, time_time w id k = time_time w' id k) →
       load_raid_shards w (files, raid, id)
       = load_raid_shards w' (files, raid, id)).
Proof.
  intros Hfiles Hfail. split; [by eapply measure_worker_failure|]. split.
  - intros pre f post raid id e Hpre Hf. unfold load_raid_shards.
    rewrite (load_loop_raise w id pre post f e Hpre); [done|].
    unfold shard_outcome. unfold_M. by rewrite Hf.
  - intros w' files raid id Hload Hclock. unfold load_raid_shards.
    by rewrite (load_loop_local w w' id files Hload Hclock).
Qed.

Lemma worker_failure_discards_run_witness :
  get_weight_files read_failure_world "/mnt/raid0" "/mnt/raid1"
    ([] ++ [banner "/mnt/raid0" "/mnt/raid1"])
  = ([banner "/mnt/raid0" "/mnt/raid1";
      [Str "Found "; Int 8; Str " shards in "; Str "/mnt/raid0";
       Str " (shards 1-8)"];
      [Str "Found "; Int 8; Str " shards in "; Str "/mnt/raid1";
       Str " (shards 9-16)"];
      [Str newline; Str "Additional files in RAID1:"];
      [Str "  "; Str "config.json"]],
     Return (raid0_files, raid1_files))
  ∧ is_Return (load_raid_shards read_failure_world (raid0_files, "RAID0", 0))
    = false
  ∧ ∃ e, (measure_split_transfer_speed read_failure_world
            "/mnt/raid0" "/mnt/raid1" []).1 !! 9
         = Some (error_line e).
Proof.
  assert (get_weight_files read_failure_world "/mnt/raid0" "/mnt/raid1"
            ([] ++ [banner "/mnt/raid0" "/mnt/raid1"])
          = ([banner "/mnt/raid0" "/mnt/raid1";
              [Str "Found "; Int 8; Str " shards in "; Str "/mnt/raid0";
               Str " (shards 1-8)"];
              [Str "Found "; Int 8; Str " shards in "; Str "/mnt/raid1";
               Str " (shards 9-16)"];
              [Str newline; Str "Additional files in RAID1:"];
              [Str "  "; Str "config.json"]],
             Return (raid0_files, raid1_files))) as Hfiles
    by (vm_compute; reflexivity).
  assert (is_Return (load_raid_shards read_failure_world
                       (raid0_files, "RAID0", 0)) = false) as Hfail
    by (vm_compute; reflexivity).
  split; [exact Hfiles|]. split; [exact Hfail|].
  destruct (proj1 (worker_failure_discards_run _ _ _ _ _ _ _ Hfiles
                     (or_introl Hfail))) as (e & _ & Hrun).
  exists e. rewrite Hrun. reflexivity.
Defined.

(** What is printed in that world. *)
Example read_failure_output :
  measure_split_transfer_speed read_failure_world "/mnt/raid0" "/mnt/raid1" []
  = ([banner "/mnt/raid0" "/mnt/raid1";
      [Str "Found "; Int 8; Str " shards in "; Str "/mnt/raid0";
       Str " (shards 1-8)"];
      [Str "Found "; Int 8; Str " shards in "; Str "/mnt/raid1";
       Str " (shards 9-16)"];
      [Str newline; Str "Additional files in RAID1:"];
      [Str "  "; Str "config.json"]]
     ++ announcement
     ++ [[Str "Error during measurement: "; Str "Input/output error: '";
          Str "/mnt/raid0/model-00003-of-00016.safetensors"; Str "'"]],
     Return tt).
Proof. vm_compute. reflexivity. Qed.

(** C5, as stated, fails for the harness: with a volume that holds no shard
    the [try] block raises ([ValueError], the shard-count check), and the
    entry point returns normally instead of raising to its caller. *)
Lemma error_propagation_counterexample :
  (∃ out1 e, measure_try_block healthy_world "/mnt/raid0" "/mnt/none"
               [banner "/mnt/raid0" "/mnt/none"] = (out1, Raise e))
  ∧ ¬ ∃ out' e, measure_split_transfer_speed healthy_world
                  "/mnt/raid0" "/mnt/none" [] = (out', Raise e).
Proof.
  split.
  - do 2 eexists. vm_compute. reflexivity.
  - intros (out' & e & Hrun). vm_compute in Hrun. discriminate Hrun.
Qed.

(** C5 — amended.  The harness entry point never raises: whatever exception
    its [try] block raises (the shard-count check, a shard number, a read), it
    prints [Error during measurement:] followed by the message of the
    exception, after the lines printed so far, and returns.  [split_folder]
    has no handler: an exception of the listing, or of the first call that
    fails, reaches its caller unchanged, with the file system as the calls
    made so far left it. *)
Theorem errors_caught_or_propagated :
  (∀ w dir1 dir2 out,
     ∃ out', measure_split_transfer_speed w dir1 dir2 out = (out', Return tt))
  ∧ (∀ w dir1 dir2 out out1 e,
       measure_try_block w dir1 dir2 (out ++ [banner dir1 dir2])
       = (out1, Raise e) →
       measure_split_transfer_speed w dir1 dir2 out
       = (out1 ++ [error_line e], Return tt))
  ∧ (∀ (FS : Type) (HFS : FileSystem FS) (fs : FS) base dests e,
       fs_iterdir base fs = Raise e →
       split_folder base dests fs = (fs, Raise e))
  ∧ (∀ (FS : Type) (HFS : FileSystem FS) (fs fs' : FS) base d0 ds all_files e,
       fs_iterdir base fs = Return all_files →
       run_ops ((Mkdir <$> d0 :: ds)
                ++ moves_to d0 (others_of all_files)
                ++ shard_moves (sorted (shards_of all_files)) (d0 :: ds)) fs
       = (fs', Raise e) →
       split_folder base (d0 :: ds) fs = (fs', Raise e)).
Proof.
  split; [|split; [|split]].
  - intros w dir1 dir2 out. rewrite measure_run.
    destruct (measure_try_block _ _ _ _) as [out1 [[]|e]]; eauto.
  - intros w dir1 dir2 out out1 e Hblock. by rewrite measure_run, Hblock.
  - intros FS HFS fs base dests e. apply split_folder_listing_raises.
  - intros FS HFS fs fs' base d0 ds all_files e Hls Hrun.
    by rewrite (split_folder_run base d0 ds all_files fs Hls).
Qed.

Lemma errors_caught_or_propagated_witness :
  measure_try_block healthy_world "/mnt/raid0" "/mnt/none"
    ([] ++ [banner "/mnt/raid0" "/mnt/none"])
  = ([banner "/mnt/raid0" "/mnt/none"],
     Raise (Exn ValueError
              [Str "Expected 8 shards on each RAID. Found "; Int 8;
               Str " on RAID0 and "; Int 0; Str " on RAID1"]))
  ∧ measure_split_transfer_speed healthy_world "/mnt/raid0" "/mnt/none" []
    = ([banner "/mnt/raid0" "/mnt/none";
        [Str "Error during measurement: ";
         Str "Expected 8 shards on each RAID. Found "; Int 8;
         Str " on RAID0 and "; Int 0; Str " on RAID1"]],
       Return tt).
Proof.
  assert (measure_try_block healthy_world "/mnt/raid0" "/mnt/none"
            ([] ++ [banner "/mnt/raid0" "/mnt/none"])
          = ([banner "/mnt/raid0" "/mnt/none"],
             Raise (Exn ValueError
                      [Str "Expected 8 shards on each RAID. Found "; Int 8;
                       Str " on RAID0 and "; Int 0; Str " on RAID1"])))
    as Hblock by (vm_compute; reflexivity).
  split; [exact Hblock|].
  exact (proj1 (proj2 errors_caught_or_propagated) _ _ _ _ _ _ Hblock).
Defined.

(** A move that fails in [split_folder]: the destination lies inside an entry
    that is being moved.  The exception reaches the caller, and the files
    moved before it stay moved. *)
Example split_folder_failure_propagates :
  split_folder ["src"] [["src"; "assets"; "out"]] (src_tree 1)
  = ([(["src"], Dir);
      (["src"; "assets"; "out"; "config.json"], File);
      (["src"; "assets"], Dir); (["src"; "assets"; "logo.png"], File);
      (["src"; shard_name 1], File);
      (["src"; "tokenizer.json"], File);
      (["src"; "assets"; "out"], Dir)],
     Raise (Exn OSError [Str "Invalid argument"; Str ": '";
                         Str "src/assets"; Str "'"])).
Proof. vm_compute. reflexivity. Qed.

(** C6, as stated, fails: with a volume that holds no shard the run prints no
    rate at all, neither a number nor NaN. *)
Lemma zero_shard_counterexample :
  ¬ ∃ line x,
      line ∈ (measure_split_transfer_speed healthy_world
                "/mnt/none" "/mnt/raid1" []).1
      ∧ F2 x ∈ line.
Proof.
  intros (line & x & Hline & Hx).
  assert ((measure_split_transfer_speed healthy_world
             "/mnt/none" "/mnt/raid1" []).1
          = [banner "/mnt/none" "/mnt/raid1";
             [Str "Error during measurement: ";
              Str "Expected 8 shards on each RAID. Found "; Int 0;
              Str " on RAID0 and "; Int 8; Str " on RAID1"]]) as Hout
    by (vm_compute; reflexivity).
  rewrite Hout in Hline. clear Hout. unfold banner in Hline.
  repeat (apply elem_of_cons in Hline as [->|Hline];
          [repeat (apply elem_of_cons in Hx as [Hx|Hx]; [discriminate Hx|]);
           by apply elem_of_nil in Hx|]).
  by apply elem_of_nil in Hline.
Qed.

(** C6 — amended.  A worker given no shard returns shard count zero, total
    size 0 and total duration 0.  When a volume holds no shard the entry
    point reports no rate for it: the shard-count check raises [ValueError],
    and the entry point prints the error line as its only line after the
    banner and returns normally.  Dividing by a zero duration raises
    [ZeroDivisionError]; it never yields NaN. *)
Theorem zero_shard_volume (w : World) (dir1 dir2 : string) (out : list text) :
  glob w dir1 ".safetensors" = [] ∨ glob w dir2 ".safetensors" = [] →
  (∀ raid id,
     load_raid_shards w ([], raid, id)
     = Return {| raid_name := raid; worker_id := id; shards := [];
                 total_size := 0; total_time := 0 |})
  ∧ (∀ x, raises (truediv x 0) ZeroDivisionError)
  ∧ ∃ n1 n2,
      (n1 = 0%Z ∨ n2 = 0%Z)
      ∧ measure_split_transfer_speed w dir1 dir2 out
        = (out ++ [banner dir1 dir2;
                   [Str "Error during measurement: ";
                    Str "Expected 8 shards on each RAID. Found "; Int n1;
                    Str " on RAID0 and "; Int n2; Str " on RAID1"]],
           Return tt).
Proof.
  intros Hempty. split; [done|]. split; [intros x; by eexists|].
  exists (Z.of_nat (length (sorted_str (glob w dir1 ".safetensors")))),
    (Z.of_nat (length (sorted_str (glob w dir2 ".safetensors")))).
  split; [destruct Hempty as [-> | ->]; [by left | by right]|].
  rewrite measure_run. unfold measure_try_block, get_weight_files. unfold_M.
  rewrite bool_decide_true.
  - cbn. by rewrite <-app_assoc.
  - destruct Hempty as [-> | ->]; [left | right]; done.
Qed.

Lemma zero_shard_volume_witness :
  glob healthy_world "/mnt/none" ".safetensors" = []
  ∧ load_raid_shards healthy_world ([], "RAID0", 0)
    = Return {| raid_name := "RAID0"; worker_id := 0; shards := [];
                total_size := 0; total_time := 0 |}.
Proof.
  assert (glob healthy_world "/mnt/none" ".safetensors" = []) as Hempty
    by reflexivity.
  split; [exact Hempty|].
  exact (proj1 (zero_shard_volume healthy_world "/mnt/none" "/mnt/raid1" []
                  (or_introl Hempty)) "RAID0" 0).
Defined.

(** The rate of a zero-shard result, were it computed: the division raises. *)
Example zero_shard_rate_raises :
  process_results
    [{| raid_name := "RAID0"; worker_id := 0; shards := [];
        total_size := 0; total_time := 0 |}] []
  = ([[Str newline; Str "RAID0"; Str " Results:"];
      [Str "Total Size: "; F2 0; Str " GB"];
      [Str "Total Time: "; F2 0; Str " seconds"]],
     Raise (Exn ZeroDivisionError [Str "float division by zero"])).
Proof. vm_compute. reflexivity. Qed.

(** A full run on two healthy volumes: 4 GB at 4 GB/s and 4 GB at 2 GB/s,
    8 GB in [max 1 2 = 2] seconds. *)
Example healthy_run_statistics :
  (measure_split_transfer_speed healthy_world "/mnt/raid0" "/mnt/raid1" []).2
  = Return tt
  ∧ drop 67 (measure_split_transfer_speed healthy_world
               "/mnt/raid0" "/mnt/raid1" []).1
    = [[Str newline; Str "Overall Statistics:"];
       [Str "RAID0"; Str ": "; F2 4; Str " GB at "; F2 4; Str " GB/s"];
       [Str "RAID1"; Str ": "; F2 4; Str " GB at "; F2 2; Str " GB/s"];
       [Str "Combined Data Loaded: "; F2 8; Str " GB"];
       [Str "Total Time: "; F2 2; Str " seconds"];
       [Str "Effective Speed: "; F2 4; Str " GB/s"]].
Proof. split; vm_compute; reflexivity. Qed.

(** * Further properties of the code *)

(** ** [split_folder]: edges, order and completeness *)

Lemma filter_ext_in {A} (P1 P2 : A → Prop) `{∀ x, Decision (P1 x)}
    `{∀ x, Decision (P2 x)} (l : list A) :
  (∀ x, x ∈ l → P1 x ↔ P2 x) → filter P1 l = filter P2 l.
Proof.
  induction l as [|x l IH]; intros Hiff; [done|].
  rewrite !filter_cons.
  rewrite IH by (intros y Hy; apply Hiff; by right).
  pose proof (Hiff x ltac:(left)).
  destruct (decide (P1 x)), (decide (P2 x)); tauto.
Qed.

Lemma others_of_complement (all_files : list Path) :
  others_of all_files
  = filter (λ o, ¬ suffix o ∈ [".safetensors"]) all_files.
Proof.
  unfold others_of. apply filter_ext_in. intros x Hx.
  rewrite shards_of_spec, list_elem_of_singleton. tauto.
Qed.

Lemma shards_others_Permutation (all_files : list Path) :
  others_of all_files ++ sorted (shards_of all_files) ≡ₚ all_files.
Proof.
  rewrite sorted_Permutation, others_of_complement. unfold shards_of.
  rewrite (comm (++)). apply filter_app_complement.
Qed.

Lemma loop_moves_nil (c r : nat) (dests : list Path) (i start : nat) :
  mjoin ((λ a, moves_to a.1 a.2) <$> loop_slices [] c r i start dests) = [].
Proof.
  revert i start. induction dests as [|d dests IH]; intros i start; [done|].
  cbn [loop_slices fmap list_fmap mjoin list_join fst snd].
  unfold py_slice at 1. rewrite drop_nil, take_nil. apply IH.
Qed.

Lemma shard_moves_nil (dests : list Path) : shard_moves [] dests = [].
Proof. apply loop_moves_nil. Qed.

(** X1 — no destination.  Called without destinations on a source that can be
    listed, [split_folder] raises before it touches the file system:
    [IndexError] from [destinations[0]] when the source has an entry that is
    not a shard, [ZeroDivisionError] from [len(st) // n_dest] otherwise. *)
Theorem split_folder_without_destinations (FS : Type) (HFS : FileSystem FS)
    (fs : FS) (base : Path) (all_files : list Path) :
  fs_iterdir base fs = Return all_files →
  ∃ e, split_folder base [] fs = (fs, Raise e)
       ∧ exn_cls e = match others_of all_files with
                     | [] => ZeroDivisionError
                     | _ :: _ => IndexError
                     end.
Proof.
  intros Hls. unfold split_folder, ls_file_exts, ls. unfold_M. rewrite Hls.
  cbn [for_]. fold (shards_of all_files). fold (others_of all_files).
  destruct (others_of all_files) as [|x l]; cbn; eauto.
Qed.

Lemma split_folder_without_destinations_witness :
  fs_iterdir ["src"] (src_tree 2) = Return (src_entries 2)
  ∧ ∃ e, split_folder ["src"] [] (src_tree 2) = (src_tree 2, Raise e)
         ∧ exn_cls e = IndexError.
Proof.
  assert (fs_iterdir ["src"] (src_tree 2) = Return (src_entries 2)) as Hls
    by reflexivity.
  split; [exact Hls|].
  destruct (split_folder_without_destinations Tree _ (src_tree 2) ["src"]
              (src_entries 2) Hls) as (e & Hrun & Hcls).
  exists e. split; [exact Hrun | exact Hcls].
Defined.

(** X2 — empty source.  On a source directory without entries
    [split_folder] only creates the destination directories: it makes no
    move. *)
Theorem split_folder_empty_source (FS : Type) (HFS : FileSystem FS)
    (fs : FS) (base d0 : Path) (ds : list Path) :
  fs_iterdir base fs = Return [] →
  split_folder base (d0 :: ds) fs = run_ops (Mkdir <$> d0 :: ds) fs.
Proof.
  intros Hls. rewrite (split_folder_run base d0 ds [] fs Hls).
  change (others_of []) with (@nil Path). change (shards_of []) with (@nil Path).
  change (sorted []) with (@nil Path). rewrite shard_moves_nil.
  cbn [moves_to fmap list_fmap]. by rewrite !app_nil_r.
Qed.

Lemma split_folder_empty_source_witness :
  fs_iterdir ["src"] [(["src"], Dir); (["mnt"], Dir)] = Return []
  ∧ split_folder ["src"] [["mnt"]] [(["src"], Dir); (["mnt"], Dir)]
    = ([(["src"], Dir); (["mnt"], Dir)], Return tt).
Proof.
  assert (fs_iterdir ["src"] [(["src"], Dir); (["mnt"], Dir)] = Return [])
    as Hls by reflexivity.
  split; [exact Hls|].
  exact (eq_trans (split_folder_empty_source Tree _ _ ["src"] ["mnt"] [] Hls)
           eq_refl).
Defined.

(** X3 — destinations first.  Every destination directory is created before
    any file is moved: when creating one of them raises, [split_folder]
    raises that exception with the file system as the creations left it, and
    no move was made. *)
Theorem split_folder_mkdir_failure (FS : Type) (HFS : FileSystem FS)
    (fs fs' : FS) (base : Path) (dests all_files : list Path) (e : exn) :
  fs_iterdir base fs = Return all_files →
  run_ops (Mkdir <$> dests) fs = (fs', Raise e) →
  split_folder base dests fs = (fs', Raise e).
Proof.
  intros Hls Hmk. unfold split_folder, ls_file_exts, ls. unfold_M.
  by rewrite Hls, for_mkdir, Hmk.
Qed.

Lemma split_folder_mkdir_failure_witness :
  fs_iterdir ["src"] (src_tree 2) = Return (src_entries 2)
  ∧ split_folder ["src"] [["mnt"]; ["src"; "config.json"; "x"]] (src_tree 2)
    = (src_tree 2 ++ [(["mnt"], Dir)],
       Raise (os_error "File exists" ["src"; "config.json"])).
Proof.
  assert (fs_iterdir ["src"] (src_tree 2) = Return (src_entries 2)) as Hls
    by reflexivity.
  split; [exact Hls|].
  apply (split_folder_mkdir_failure Tree _ _ _ _ _ _ _ Hls).
  vm_compute. reflexivity.
Defined.

Lemma shard_moves_pairs (st dests : list Path) :
  shard_moves st dests
  = (λ p : Path * Path, Rename p.1 p.2)
      <$> mjoin ((λ a : Path * list Path,
                    (λ x, (x, (a.1 / name x)%path)) <$> a.2)
                 <$> assignments st dests).
Proof.
  unfold shard_moves. induction (assignments st dests) as [|a l IH]; [done|].
  rewrite !fmap_cons. cbn [mjoin list_join]. rewrite fmap_app.
  f_equal; [|exact IH]. unfold moves_to. by rewrite <-list_fmap_compose.
Qed.

Lemma join_pairs_fst (l : list (Path * list Path)) :
  (mjoin ((λ a : Path * list Path,
             (λ x, (x, (a.1 / name x)%path)) <$> a.2) <$> l)).*1
  = mjoin l.*2.
Proof.
  induction l as [|a l IH]; [done|].
  rewrite !fmap_cons. cbn [mjoin list_join]. rewrite fmap_app.
  f_equal; [|exact IH]. rewrite <-list_fmap_compose. apply list_fmap_id.
Qed.

(** X4 — every entry is moved once.  With at least one destination,
    [split_folder] is the creation of the destinations followed by a list of
    renames in which every entry of the listing is the source of exactly one
    rename, and every rename goes to one of the destinations under the
    entry's own name. *)
Theorem split_folder_moves_every_entry (FS : Type) (HFS : FileSystem FS)
    (fs : FS) (base d0 : Path) (ds all_files : list Path) :
  fs_iterdir base fs = Return all_files →
  ∃ renames : list (Path * Path),
    split_folder base (d0 :: ds) fs
    = run_ops ((Mkdir <$> d0 :: ds)
               ++ ((λ p, Rename p.1 p.2) <$> renames)) fs
    ∧ renames.*1 ≡ₚ all_files
    ∧ Forall (λ p, ∃ dest, dest ∈ d0 :: ds ∧ p.2 = (dest / name p.1)%path)
             renames.
Proof.
  intros Hls. set (st := sorted (shards_of all_files)).
  exists (((λ x, (x, (d0 / name x)%path)) <$> others_of all_files)
          ++ mjoin ((λ a : Path * list Path,
                       (λ x, (x, (a.1 / name x)%path)) <$> a.2)
                    <$> assignments st (d0 :: ds))).
  split; [|split].
  - rewrite (split_folder_run base d0 ds all_files fs Hls). fold st.
    rewrite fmap_app, <-shard_moves_pairs. unfold moves_to.
    by rewrite <-list_fmap_compose.
  - rewrite fmap_app, join_pairs_fst, assignments_join by done.
    rewrite <-list_fmap_compose, list_fmap_id.
    apply shards_others_Permutation.
  - apply Forall_app. split.
    + apply Forall_fmap, Forall_forall. intros x _. exists d0.
      split; [by left | done].
    + apply Forall_forall. intros p Hp.
      apply list_elem_of_join in Hp as (l & Hp & Hl).
      apply list_elem_of_fmap in Hl as (a & -> & Ha).
      apply list_elem_of_fmap in Hp as (x & -> & _).
      exists a.1. split; [|done].
      rewrite <-(assignments_fst st (d0 :: ds)).
      by apply (list_elem_of_fmap_2 fst _ _ Ha).
Qed.

Lemma split_folder_moves_every_entry_witness :
  fs_iterdir ["src"] (src_tree 8) = Return (src_entries 8)
  ∧ ∃ renames : list (Path * Path),
      length renames = 11
      ∧ split_folder ["src"] two_volumes (src_tree 8)
        = run_ops ((Mkdir <$> two_volumes)
                   ++ ((λ p, Rename p.1 p.2) <$> renames)) (src_tree 8).
Proof.
  assert (fs_iterdir ["src"] (src_tree 8) = Return (src_entries 8)) as Hls
    by reflexivity.
  split; [exact Hls|].
  destruct (split_folder_moves_every_entry Tree _ (src_tree 8) ["src"]
              ["mnt"; "raid0"] [["mnt"; "raid1"]] (src_entries 8) Hls)
    as (renames & Hrun & Hperm & _).
  exists renames. split; [|exact Hrun].
  rewrite <-(length_fmap fst), Hperm. reflexivity.
Defined.

(** *** The order does not depend on the enumeration *)

Lemma lex_leb_antisym {A} (leb : A → A → bool) :
  (∀ x y, leb x y = true → leb y x = true → x = y) →
  ∀ l1 l2, lex_leb leb l1 l2 = true → lex_leb leb l2 l1 = true → l1 = l2.
Proof.
  intros Hanti. induction l1 as [|x l1 IH]; intros [|y l2]; cbn; try done.
  destruct (leb x y) eqn:Hxy, (leb y x) eqn:Hyx; try done.
  intros H1 H2. rewrite (Hanti x y Hxy Hyx). f_equal. by apply IH.
Qed.

Lemma chr_leb_antisym (a b : ascii) :
  chr_leb a b = true → chr_leb b a = true → a = b.
Proof.
  unfold chr_leb. rewrite !N.leb_le. intros H1 H2.
  rewrite <-(ascii_N_embedding a), <-(ascii_N_embedding b). f_equal. lia.
Qed.

#[export] Instance str_le_antisym : AntiSymm (=) str_le.
Proof.
  intros s1 s2 H1 H2.
  rewrite <-(string_of_list_ascii_of_string s1),
    <-(string_of_list_ascii_of_string s2). f_equal.
  by apply (lex_leb_antisym _ chr_leb_antisym).
Qed.

#[export] Instance path_le_antisym : AntiSymm (=) path_le.
Proof. intros p q. apply (lex_leb_antisym _ (anti_symm str_le)). Qed.

(** X5 — reproducible distribution.  Sorting makes the shard assignment
    independent of the order in which the system enumerates the source: two
    listings with the same entries give the same sorted shard list and the
    same shard moves. *)
Theorem split_independent_of_enumeration (all_files all_files' dests : list Path) :
  all_files ≡ₚ all_files' →
  sorted (shards_of all_files) = sorted (shards_of all_files')
  ∧ assignments (sorted (shards_of all_files)) dests
    = assignments (sorted (shards_of all_files')) dests
  ∧ shard_moves (sorted (shards_of all_files)) dests
    = shard_moves (sorted (shards_of all_files')) dests.
Proof.
  intros Hperm.
  assert (sorted (shards_of all_files) = sorted (shards_of all_files')) as ->.
  { apply (StronglySorted_unique path_le _); try apply sorted_StronglySorted.
    rewrite !sorted_Permutation. unfold shards_of. by rewrite Hperm. }
  done.
Qed.

Lemma split_independent_of_enumeration_witness :
  src_entries 9 ≡ₚ reverse (src_entries 9)
  ∧ shard_moves (sorted (shards_of (src_entries 9))) two_volumes
    = shard_moves (sorted (shards_of (reverse (src_entries 9)))) two_volumes.
Proof.
  assert (src_entries 9 ≡ₚ reverse (src_entries 9)) as Hperm
    by (symmetry; apply reverse_Permutation).
  split; [exact Hperm|].
  exact (proj2 (proj2 (split_independent_of_enumeration _ _ two_volumes Hperm))).
Defined.

(** X6 — one destination.  With a single destination [split_folder] moves
    everything into it: the entries that are not shards in listing order, then
    all the shards in sorted order. *)
Theorem split_folder_single_destination (FS : Type) (HFS : FileSystem FS)
    (fs : FS) (base d : Path) (all_files : list Path) :
  fs_iterdir base fs = Return all_files →
  split_folder base [d] fs
  = run_ops (Mkdir d :: ((λ x, Rename x (d / name x)%path)
                           <$> others_of all_files
                              ++ sorted (shards_of all_files))) fs.
Proof.
  intros Hls. rewrite (split_folder_run base d [] all_files fs Hls).
  set (st := sorted (shards_of all_files)).
  assert (shard_moves st [d] = moves_to d st) as ->.
  { unfold shard_moves, assignments. cbn [length loop_slices].
    rewrite Nat.div_1_r, Nat.mod_1_r. cbn. rewrite app_nil_r.
    unfold py_slice. by rewrite Nat.add_0_r, Nat.sub_0_r, firstn_all. }
  unfold moves_to. by rewrite fmap_app.
Qed.

Lemma split_folder_single_destination_witness :
  fs_iterdir ["src"] (src_tree 2) = Return (src_entries 2)
  ∧ split_folder ["src"] [["mnt"]] (src_tree 2)
    = ([(["src"], Dir); (["mnt"; "config.json"], File);
        (["mnt"; "assets"], Dir); (["mnt"; "assets"; "logo.png"], File);
        (["mnt"; shard_name 2], File); (["mnt"; shard_name 1], File);
        (["mnt"; "tokenizer.json"], File); (["mnt"], Dir)],
       Return tt).
Proof.
  assert (fs_iterdir ["src"] (src_tree 2) = Return (src_entries 2)) as Hls
    by reflexivity.
  split; [exact Hls|].
  refine (eq_trans (split_folder_single_destination Tree _ (src_tree 2)
                      ["src"] ["mnt"] (src_entries 2) Hls) _).
  vm_compute. reflexivity.
Defined.

(** X7 — the remainder goes to the first destinations.  In destination order
    the number of shards never grows: a destination gets at least as many
    shards as every destination after it. *)
Theorem earlier_destinations_get_more (st dests : list Path) (i j : nat)
    (a b : Path * list Path) :
  i ≤ j →
  assignments st dests !! i = Some a →
  assignments st dests !! j = Some b →
  length b.2 ≤ length a.2.
Proof.
  intros Hij Ha Hb.
  assert (j < length dests) as Hj.
  { rewrite <-(assignments_length st dests). by eapply lookup_lt_Some. }
  assert (i < length dests) as Hi by lia.
  destruct (lookup_lt_is_Some_2 dests i Hi) as [di Hdi].
  destruct (lookup_lt_is_Some_2 dests j Hj) as [dj Hdj].
  rewrite (assignments_lookup _ _ _ _ Hdi) in Ha.
  rewrite (assignments_lookup _ _ _ _ Hdj) in Hb. simplify_eq. cbn [snd].
  rewrite !assignment_slice_length by done. unfold extra.
  destruct (Nat.ltb_spec i (length st `mod` length dests)),
    (Nat.ltb_spec j (length st `mod` length dests)); lia.
Qed.

Lemma earlier_destinations_get_more_witness :
  0 ≤ 1
  ∧ ∃ a b, assignments nine_shards two_volumes !! 0 = Some a
           ∧ assignments nine_shards two_volumes !! 1 = Some b
           ∧ length b.2 ≤ length a.2.
Proof.
  split; [lia|].
  eexists _, _. split; [reflexivity|]. split; [reflexivity|].
  exact (earlier_destinations_get_more nine_shards two_volumes 0 1 _ _
           (Nat.le_succ_diag_r 0) eq_refl eq_refl).
Defined.

(** ** The harness: success, order and edges *)

Lemma comprehension_Return {A B} (f : A → Result B) (l : list A) (ys : list B) :
  comprehension f l = Return ys ↔ Forall2 (λ x y, f x = Return y) l ys.
Proof.
  revert ys. induction l as [|x l IH]; intros ys; cbn [comprehension].
  - split; [intros [= <-]; constructor | by inversion 1].
  - unfold_M. split.
    + destruct (f x) as [y|] eqn:Hx; [|done].
      destruct (comprehension f l) as [ys'|] eqn:Hl; [|done].
      intros [= <-]. constructor; [done|]. by apply IH.
    + inversion 1 as [|? y ? ys' Hx Hl]; subst. rewrite Hx.
      apply IH in Hl. by rewrite Hl.
Qed.

Lemma for_print {A} (g : A → text) (l : list A) (out : list text) :
  for_ l (λ x, print (g x)) out = (out ++ (g <$> l), Return tt).
Proof.
  revert out. induction l as [|x l IH]; intros out; cbn [for_ fmap list_fmap].
  - by rewrite app_nil_r.
  - unfold_M. rewrite print_run, IH. by rewrite <-app_assoc.
Qed.

Lemma sorted_str_Permutation (l : list string) : sorted_str l ≡ₚ l.
Proof. apply merge_sort_Permutation. Qed.

Lemma sorted_str_StronglySorted (l : list string) :
  StronglySorted str_le (sorted_str l).
Proof. apply (StronglySorted_merge_sort _). Qed.

(** X8 — what [get_weight_files] returns.  When it returns, each of the two
    lists has exactly eight paths, holds the [.safetensors] entries of its
    directory in lexical order, every path has a shard number that [int]
    accepts, and the two [Found 8 shards] lines were printed first after what
    was printed before. *)
Theorem get_weight_files_postcondition (w : World) (dir1 dir2 : string)
    (out out' : list text) (files1 files2 : list string) :
  get_weight_files w dir1 dir2 out = (out', Return (files1, files2)) →
  length files1 = 8 ∧ length files2 = 8
  ∧ files1 ≡ₚ glob w dir1 ".safetensors"
  ∧ files2 ≡ₚ glob w dir2 ".safetensors"
  ∧ StronglySorted str_le files1 ∧ StronglySorted str_le files2
  ∧ Forall (λ f, is_Return (shard_number f) = true) (files1 ++ files2)
  ∧ ∃ more,
      out' = out
             ++ [[Str "Found "; Int 8; Str " shards in "; Str dir1;
                  Str " (shards 1-8)"];
                 [Str "Found "; Int 8; Str " shards in "; Str dir2;
                  Str " (shards 9-16)"]]
             ++ more.
Proof.
  unfold get_weight_files.
  set (f1 := sorted_str (glob w dir1 ".safetensors")).
  set (f2 := sorted_str (glob w dir2 ".safetensors")).
  case_bool_decide as Hcount; [done|].
  assert (length f1 = 8 ∧ length f2 = 8) as [H1 H2].
  { destruct (decide (length f1 = 8)), (decide (length f2 = 8)); tauto. }
  unfold_M.
  destruct (comprehension shard_number f1) as [ns1|] eqn:Hn1; [|done].
  destruct (comprehension shard_number f2) as [ns2|] eqn:Hn2; [|done].
  rewrite !print_run, H1, H2.
  match goal with
  | |- context [match ?l with [] => _ | _ :: _ => _ end] =>
      generalize l; intros other_files
  end.
  intros Hrun.
  assert (∃ more, out' = out
            ++ [[Str "Found "; Int 8; Str " shards in "; Str dir1;
                 Str " (shards 1-8)"];
                [Str "Found "; Int 8; Str " shards in "; Str dir2;
                 Str " (shards 9-16)"]] ++ more
          ∧ files1 = f1 ∧ files2 = f2) as (more & -> & -> & ->).
  { revert Hrun. destruct other_files as [|o os].
    - intros [= <- <- <-]. exists []. by rewrite app_nil_r, <-app_assoc.
    - rewrite print_run, for_print. intros [= <- <- <-].
      eexists. by rewrite <-!app_assoc. }
  clear Hrun.
  split; [done|]. split; [done|].
  split; [apply sorted_str_Permutation|]. split; [apply sorted_str_Permutation|].
  split; [apply sorted_str_StronglySorted|].
  split; [apply sorted_str_StronglySorted|].
  split; [|by exists more].
  apply Forall_app. split.
  - apply comprehension_Return in Hn1. apply Forall_forall. intros f Hf.
    apply list_elem_of_lookup in Hf as [i Hi].
    destruct (Forall2_lookup_l _ _ _ _ _ Hn1 Hi) as (n & _ & ->). done.
  - apply comprehension_Return in Hn2. apply Forall_forall. intros f Hf.
    apply list_elem_of_lookup in Hf as [i Hi].
    destruct (Forall2_lookup_l _ _ _ _ _ Hn2 Hi) as (n & _ & ->). done.
Qed.

Lemma get_weight_files_postcondition_witness :
  get_weight_files healthy_world "/mnt/raid0" "/mnt/raid1" []
  = ([[Str "Found "; Int 8; Str " shards in "; Str "/mnt/raid0";
       Str " (shards 1-8)"];
      [Str "Found "; Int 8; Str " shards in "; Str "/mnt/raid1";
       Str " (shards 9-16)"];
      [Str newline; Str "Additional files in RAID1:"];
      [Str "  "; Str "config.json"]],
     Return (raid0_files, raid1_files))
  ∧ length raid0_files = 8
  ∧ StronglySorted str_le raid1_files.
Proof.
  assert (get_weight_files healthy_world "/mnt/raid0" "/mnt/raid1" []
          = ([[Str "Found "; Int 8; Str " shards in "; Str "/mnt/raid0";
               Str " (shards 1-8)"];
              [Str "Found "; Int 8; Str " shards in "; Str "/mnt/raid1";
               Str " (shards 9-16)"];
              [Str newline; Str "Additional files in RAID1:"];
              [Str "  "; Str "config.json"]],
             Return (raid0_files, raid1_files))) as Hrun
    by (vm_compute; reflexivity).
  split; [exact Hrun|].
  destruct (get_weight_files_postcondition _ _ _ _ _ _ _ Hrun)
    as (H1 & _ & _ & _ & _ & Hs2 & _).
  split; [exact H1 | exact Hs2].
Defined.

(** X9 — the shard-count check.  When either directory does not hold exactly
    eight [.safetensors] entries, [get_weight_files] raises [ValueError] with
    both counts in its message, before it prints anything and before it looks
    at any file name. *)
Theorem get_weight_files_count_mismatch (w : World) (dir1 dir2 : string)
    (out : list text) :
  length (glob w dir1 ".safetensors") ≠ 8
  ∨ length (glob w dir2 ".safetensors") ≠ 8 →
  get_weight_files w dir1 dir2 out
  = (out,
     Raise (Exn ValueError
              [Str "Expected 8 shards on each RAID. Found ";
               Int (Z.of_nat (length (glob w dir1 ".safetensors")));
               Str " on RAID0 and ";
               Int (Z.of_nat (length (glob w dir2 ".safetensors")));
               Str " on RAID1"])).
Proof.
  intros Hcount. unfold get_weight_files.
  rewrite bool_decide_true by (by rewrite !sorted_str_Permutation).
  unfold throw. by rewrite !sorted_str_Permutation.
Qed.

Lemma get_weight_files_count_mismatch_witness :
  (length (glob healthy_world "/mnt/raid0" ".safetensors") ≠ 8
   ∨ length (glob healthy_world "/mnt/empty" ".safetensors") ≠ 8)
  ∧ get_weight_files healthy_world "/mnt/raid0" "/mnt/empty" []
    = ([], Raise (Exn ValueError
                    [Str "Expected 8 shards on each RAID. Found "; Int 8;
                     Str " on RAID0 and "; Int 0; Str " on RAID1"])).
Proof.
  assert (length (glob healthy_world "/mnt/raid0" ".safetensors") ≠ 8
          ∨ length (glob healthy_world "/mnt/empty" ".safetensors") ≠ 8)
    as Hcount by (right; intros H; vm_compute in H; discriminate H).
  split; [exact Hcount|].
  exact (get_weight_files_count_mismatch healthy_world "/mnt/raid0"
           "/mnt/empty" [] Hcount).
Defined.

(** *** The worker *)

Lemma shard_outcome_Return (w : World) (f : string) :
  is_Return (shard_outcome w f) = true
  ↔ ∃ vs sz n, load_file w f = Return vs ∧ force_load vs 0 = Return sz
               ∧ shard_number f = Return n.
Proof.
  unfold shard_outcome. unfold_M. split.
  - destruct (load_file w f) as [vs|]; [|done].
    destruct (force_load vs 0) as [sz|] eqn:Hsz; [|done].
    destruct (shard_number f) as [n|]; [|done]. intros _. by exists vs, sz, n.
  - by intros (vs & sz & n & -> & -> & ->).
Qed.

Lemma load_loop_entries (w : World) (id : nat) (files : list string) :
  ∀ i results ts tt results' ts' tt',
    load_loop w id i files results ts tt = Return (results', ts', tt') →
    ∃ new, results' = results ++ new
      ∧ length new = length files
      ∧ ∀ k e, new !! k = Some e →
          ∃ f vs sz,
            files !! k = Some f ∧ file e = f
            ∧ load_file w f = Return vs ∧ force_load vs 0 = Return sz
            ∧ size e = int_div_2pow30 sz
            ∧ shard_number f = Return (shard e)
            ∧ time e = (time_time w id (2 * (i + k) + 1)
                        - time_time w id (2 * (i + k)))%float.
Proof.
  induction files as [|f files IH]; intros i results ts tt results' ts' tt' Hrun.
  - cbn in Hrun. simplify_eq. exists []. rewrite app_nil_r.
    split; [done|]. split; [done|]. intros k e Hk. by destruct k.
  - cbn [load_loop] in Hrun. unfold_M.
    destruct (load_file w f) as [vs|] eqn:Hload; [|done].
    destruct (force_load vs 0) as [sz|] eqn:Hforce; [|done].
    destruct (shard_number f) as [n|] eqn:Hnum; [|done].
    apply IH in Hrun as (new & -> & Hlen & Hnew).
    eexists (_ :: new). rewrite <-app_assoc. split; [done|].
    split; [cbn; by rewrite Hlen|].
    intros [|k] e Hk; cbn in Hk.
    + simplify_eq. exists f, vs, sz. rewrite Nat.add_0_r.
      repeat split; try done. cbn [time].
      by replace (i + i) with (2 * i) by lia.
    + destruct (Hnew k e Hk) as (g & vs' & sz' & ? & ? & ? & ? & ? & ? & Ht).
      exists g, vs', sz'. repeat split; try done.
      by replace (i + S k) with (S i + k) by lia.
Qed.

(** X10 — when the worker returns.  [load_raid_shards] returns a result
    exactly when, for every file of its list, the read returns, forcing every
    tensor returns, and the file name has a shard number; otherwise it
    raises. *)
Theorem load_raid_shards_returns_iff (w : World) (files : list string)
    (raid : string) (id : nat) :
  (∃ r, load_raid_shards w (files, raid, id) = Return r)
  ↔ Forall (λ f, ∃ vs sz n, load_file w f = Return vs
                            ∧ force_load vs 0 = Return sz
                            ∧ shard_number f = Return n) files.
Proof.
  etrans; [|apply Forall_iff, shard_outcome_Return].
  unfold load_raid_shards. unfold_M. split.
  - intros [r Hr]. apply Forall_forall. intros f Hf.
    destruct (is_Return (shard_outcome w f)) eqn:Hout; [done|].
    pose proof (load_loop_no_result w id files f Hf Hout 0 [] 0%float
                  0%float) as Hno.
    by destruct (load_loop _ _ _ _ _ _ _) as [[[??]?]|?].
  - intros Hok.
    destruct (load_loop_returns w id files Hok 0 [] 0%float 0%float)
      as [[[results ts] tt] ->]. eauto.
Qed.

(** X11 — what the worker returns.  The result carries the name and the
    number the worker was given and one entry per file, in the order of the
    list.  Entry [k] names file [k]; its size is the byte count of the file's
    tensors divided by [1024 ** 3], its shard number the one in the file name,
    its duration the difference of the two clock readings around the read. *)
Theorem load_raid_shards_entries (w : World) (files : list string)
    (raid : string) (id : nat) (r : WorkerResult) :
  load_raid_shards w (files, raid, id) = Return r →
  raid_name r = raid ∧ worker_id r = id
  ∧ length (shards r) = length files
  ∧ ∀ k e, shards r !! k = Some e →
      ∃ f vs sz,
        files !! k = Some f ∧ file e = f
        ∧ load_file w f = Return vs ∧ force_load vs 0 = Return sz
        ∧ size e = int_div_2pow30 sz
        ∧ shard_number f = Return (shard e)
        ∧ time e = (time_time w id (2 * k + 1) - time_time w id (2 * k))%float.
Proof.
  unfold load_raid_shards. unfold_M.
  destruct (load_loop _ _ _ _ _ _ _) as [[[results ts] tt]|] eqn:Hrun; [|done].
  intros [= <-]. cbn.
  apply load_loop_entries in Hrun as (new & -> & Hlen & Hnew).
  by repeat split.
Qed.

Lemma load_raid_shards_entries_witness :
  ∃ r, load_raid_shards healthy_world (raid1_files, "RAID1", 1) = Return r
       ∧ length (shards r) = 8.
Proof.
  destruct (load_raid_shards healthy_world (raid1_files, "RAID1", 1))
    as [r|e] eqn:Hr; [|vm_compute in Hr; discriminate Hr].
  exists r. split; [reflexivity|].
  exact (proj1 (proj2 (proj2 (load_raid_shards_entries _ _ _ _ _ Hr)))).
Defined.

(** X12 — the bytes of a shard.  When forcing every tensor goes through, the
    size of a shard is the sum over its values of [nelement * element_size],
    a value that is not a tensor counting for nothing; the first tensor whose
    [mean().item()] raises ends the count with that exception. *)
Theorem force_load_bytes (vs : list value) (acc : Z) :
  (Forall (λ v, forced v = true) vs →
   force_load vs acc = Return (acc + foldr Z.add 0 (tensor_bytes <$> vs))%Z)
  ∧ (∀ vs1 n es e vs2,
       vs = vs1 ++ Tensor n es (Raise e) :: vs2 →
       Forall (λ v, forced v = true) vs1 →
       force_load vs acc = Raise e).
Proof.
  split.
  - intros Hok. revert acc.
    induction Hok as [|v vs Hv _ IH]; intros acc; [cbn; f_equal; lia|].
    destruct v as [n es [[]|e]|]; cbn in *; try done;
      unfold_M; rewrite IH; f_equal; lia.
  - intros vs1 n es e vs2 -> Hok. revert acc.
    induction Hok as [|v vs Hv _ IH]; intros acc; [done|].
    destruct v as [n' es' [[]|e']|]; cbn in *; try done; apply IH.
Qed.

Lemma force_load_bytes_witness :
  Forall (λ v, forced v = true) (half_gigabyte ++ [NotTensor])
  ∧ force_load (half_gigabyte ++ [NotTensor]) 0 = Return (2 ^ 29)%Z.
Proof.
  assert (Forall (λ v, forced v = true) (half_gigabyte ++ [NotTensor])) as Hok
    by (repeat constructor).
  split; [exact Hok|].
  exact (proj1 (force_load_bytes (half_gigabyte ++ [NotTensor]) 0) Hok).
Defined.

(** X13 — the worker stops at the first failure.  When the files before [f]
    go through and the iteration of [f] raises [e], the worker raises [e],
    whatever files follow [f] in the list and whatever reading them would
    give: nothing after [f] is read. *)
Theorem load_raid_shards_stops_at_first_failure (w w' : World)
    (pre post post' : list string) (f raid : string) (id : nat) (e : exn) :
  Forall (λ g, is_Return (shard_outcome w g) = true) pre →
  shard_outcome w f = Raise e →
  (∀ g, g ∈ pre ++ [f] → load_file w' g = load_file w g) →
  load_raid_shards w (pre ++ f :: post, raid, id) = Raise e
  ∧ load_raid_shards w' (pre ++ f :: post', raid, id) = Raise e.
Proof.
  intros Hpre Hf Hsame.
  assert (∀ g, g ∈ pre ++ [f] → shard_outcome w' g = shard_outcome w g) as Hout.
  { intros g Hg. unfold shard_outcome. by rewrite (Hsame g Hg). }
  unfold load_raid_shards. split.
  - by rewrite (load_loop_raise w id pre post f e Hpre Hf).
  - rewrite (load_loop_raise w' id pre post' f e); [done| |].
    + apply Forall_forall. intros g Hg. rewrite Hout.
      * by apply (proj1 (Forall_forall _ _) Hpre).
      * apply elem_of_app. by left.
    + rewrite Hout; [done|]. apply elem_of_app. right. by left.
Qed.

Lemma load_raid_shards_stops_at_first_failure_witness :
  Forall (λ g, is_Return (shard_outcome read_failure_world g) = true)
    (take 2 raid0_files)
  ∧ load_raid_shards read_failure_world
      (take 2 raid0_files ++ "/mnt/raid0/model-00003-of-00016.safetensors"
         :: ["no such file"], "RAID0", 0)
    = Raise (Exn OSError
               [Str "Input/output error: '";
                Str "/mnt/raid0/model-00003-of-00016.safetensors"; Str "'"]).
Proof.
  assert (Forall (λ g, is_Return (shard_outcome read_failure_world g) = true)
            (take 2 raid0_files)) as Hpre by (repeat constructor).
  split; [exact Hpre|].
  assert (shard_outcome read_failure_world
            "/mnt/raid0/model-00003-of-00016.safetensors"
          = Raise (Exn OSError
                     [Str "Input/output error: '";
                      Str "/mnt/raid0/model-00003-of-00016.safetensors";
                      Str "'"])) as Hf by reflexivity.
  exact (proj1 (load_raid_shards_stops_at_first_failure read_failure_world
                  read_failure_world _ ["no such file"] [] _ "RAID0" 0 _
                  Hpre Hf (λ _ _, eq_refl))).
Defined.

Lemma pool_map_Return {A B} (arrival : list nat) (f : A → Result B)
    (args : list A) (rs : list B) :
  pool_map arrival f args = Return rs
  ↔ Forall2 (λ a r, f a = Return r) args rs.
Proof.
  unfold pool_map. rewrite <-(comprehension_Return f args rs).
  assert (comprehension id (f <$> args) = comprehension f args) as ->.
  { clear. induction args as [|a args IH]; [done|].
    cbn [fmap list_fmap comprehension]. unfold_M. cbn. by rewrite IH. }
  by destruct (comprehension f args).
Qed.

(** X14 — the pool keeps the order of its arguments.  [pool.map] returns a
    list exactly when every task returns, and the list then holds the results
    in the order of the arguments, whatever the order in which the tasks
    completed; whether it raises does not depend on that order either. *)
Theorem pool_map_order {A B} (arrival arrival' : list nat) (f : A → Result B)
    (args : list A) :
  (∀ rs, pool_map arrival f args = Return rs
         ↔ Forall2 (λ a r, f a = Return r) args rs)
  ∧ is_Return (pool_map arrival f args)
    = is_Return (pool_map arrival' f args).
Proof.
  split; [apply pool_map_Return|].
  destruct (pool_map arrival f args) as [rs|e] eqn:H1.
  - apply pool_map_Return in H1. apply (pool_map_Return arrival') in H1.
    by rewrite H1.
  - destruct (pool_map arrival' f args) as [rs|e'] eqn:H2; [|done].
    apply pool_map_Return in H2. apply (pool_map_Return arrival) in H2.
    congruence.
Qed.

(** *** The report *)

Lemma shard_details_outcome (ss : list ShardEntry) (out : list text) :
  ∃ lines,
    (Forall (λ s, PrimFloat.is_zero (time s) = false) ss
     ∧ length lines = 3 * length ss
     ∧ for_ ss (λ shard,
         print [Str "Shard "; Int (full_concept.shard shard); Str ": ";
                Str (name (path_of_str (file shard)))] ;;
         print [Str "  Size: "; F2 (size shard); Str " GB"] ;;
         speed ← lift (truediv (size shard) (time shard));
         print [Str "  Speed: "; F2 speed; Str " GB/s"]) out
       = (out ++ lines, Return tt))
    ∨ (¬ Forall (λ s, PrimFloat.is_zero (time s) = false) ss
       ∧ ∃ msg,
           for_ ss (λ shard,
             print [Str "Shard "; Int (full_concept.shard shard); Str ": ";
                    Str (name (path_of_str (file shard)))] ;;
             print [Str "  Size: "; F2 (size shard); Str " GB"] ;;
             speed ← lift (truediv (size shard) (time shard));
             print [Str "  Speed: "; F2 speed; Str " GB/s"]) out
           = (out ++ lines, Raise (Exn ZeroDivisionError msg))).
Proof.
  match goal with |- context [for_ ss ?b] => set (body := b) end.
  assert (∀ s out0,
            body s out0
            = if PrimFloat.is_zero (time s)
              then (out0 ++ [[Str "Shard "; Int (shard s); Str ": ";
                              Str (name (path_of_str (file s)))];
                             [Str "  Size: "; F2 (size s); Str " GB"]],
                    Raise (Exn ZeroDivisionError
                             [Str "float division by zero"]))
              else (out0 ++ [[Str "Shard "; Int (shard s); Str ": ";
                              Str (name (path_of_str (file s)))];
                             [Str "  Size: "; F2 (size s); Str " GB"];
                             [Str "  Speed: "; F2 (size s / time s)%float;
                              Str " GB/s"]],
                    Return tt)) as Hbody.
  { intros s out0. unfold body. unfold_M. rewrite !print_run. unfold truediv.
    destruct (PrimFloat.is_zero (time s)); [|rewrite print_run];
      by rewrite <-!app_assoc. }
  clearbody body. revert out. induction ss as [|s ss IH]; intros out.
  - exists []. left. split; [constructor|]. split; [done|].
    by rewrite app_nil_r.
  - cbn [for_]. unfold_M. rewrite Hbody.
    destruct (PrimFloat.is_zero (time s)) eqn:Hz.
    + eexists. right. split; [|by eexists].
      intros Hall. apply Forall_cons in Hall as [Hs _]. congruence.
    + destruct (IH (out ++ [[Str "Shard "; Int (shard s); Str ": ";
                             Str (name (path_of_str (file s)))];
                            [Str "  Size: "; F2 (size s); Str " GB"];
                            [Str "  Speed: "; F2 (size s / time s)%float;
                             Str " GB/s"]]))
        as (lines & [(Hall & Hlen & ->)|(Hnot & msg & ->)]).
      * eexists (_ ++ lines). rewrite app_assoc. left.
        split; [by constructor|]. split; [|done].
        rewrite length_app, Hlen. cbn. lia.
      * eexists (_ ++ lines). rewrite app_assoc. right.
        split; [|by exists msg].
        intros Hall. apply Forall_cons in Hall as [_ Hall]. by apply Hnot.
Qed.

Lemma process_results_cases (results : list WorkerResult) (out : list text) :
  ∃ lines,
    (Forall durations_nonzero results
     ∧ length lines = sum_list ((λ r, 5 + 3 * length (shards r)) <$> results)
     ∧ process_results results out = (out ++ lines, Return tt))
    ∨ (¬ Forall durations_nonzero results
       ∧ ∃ msg, process_results results out
                = (out ++ lines, Raise (Exn ZeroDivisionError msg))).
Proof.
  unfold process_results.
  match goal with |- context [for_ results ?b] => set (body := b) end.
  assert (∀ r out0, ∃ lines,
            (durations_nonzero r
             ∧ length lines = 5 + 3 * length (shards r)
             ∧ body r out0 = (out0 ++ lines, Return tt))
            ∨ (¬ durations_nonzero r
               ∧ ∃ msg, body r out0
                        = (out0 ++ lines, Raise (Exn ZeroDivisionError msg))))
    as Hbody.
  { intros r out0. unfold body. unfold_M. rewrite !print_run. unfold truediv.
    destruct (PrimFloat.is_zero (total_time r)) eqn:Hz.
    { eexists [_; _; _]. rewrite <-!app_assoc. right. split; [|by eexists].
      intros [Hr _]. congruence. }
    rewrite !print_run.
    match goal with
    | |- context [for_ (shards r) ?body ?o] =>
        destruct (shard_details_outcome (shards r) o)
          as (lines & [(Hss & Hlen1 & Hrun)|(Hnot & msg & Hrun)])
    end.
    - eexists (_ :: _ :: _ :: _ :: _ :: lines). left. split; [done|]. split.
      + cbn. by rewrite Hlen1.
      + revert Hrun. unfold_M. unfold truediv. intros ->.
        by rewrite <-!app_assoc.
    - eexists (_ :: _ :: _ :: _ :: _ :: lines). right.
      split; [by intros [_ Hss]|]. exists msg.
      revert Hrun. unfold_M. unfold truediv. intros ->.
      by rewrite <-!app_assoc. }
  clearbody body. revert out.
  induction results as [|r results IH]; intros out.
  - exists []. left. split; [constructor|]. split; [done|].
    by rewrite app_nil_r.
  - cbn [for_]. unfold_M.
    destruct (Hbody r out) as (l1 & [(Hr & Hlen1 & ->)|(Hnot & msg & ->)]).
    + destruct (IH (out ++ l1))
        as (l2 & [(Hall & Hlen & ->)|(Hnot & msg & ->)]).
      * exists (l1 ++ l2). rewrite app_assoc. left.
        split; [by constructor|]. split; [|done].
        rewrite length_app, Hlen, Hlen1. done.
      * exists (l1 ++ l2). rewrite app_assoc. right.
        split; [|by exists msg].
        intros Hall. apply Forall_cons in Hall as [_ Hall]. by apply Hnot.
    + exists l1. right. split; [|by exists msg].
      intros Hall. apply Forall_cons in Hall as [Hr _]. by apply Hnot.
Qed.

(** A list satisfies a decidable property throughout, or has a first element
    that does not. *)
Lemma first_failing {A} (P : A → Prop) `{∀ x, Decision (P x)} (l : list A) :
  Forall P l
  ∨ ∃ pre x post, l = pre ++ x :: post ∧ Forall P pre ∧ ¬ P x.
Proof.
  induction l as [|x l IH]; [by left|].
  destruct (decide (P x)) as [Hx|Hx].
  - destruct IH as [Hl|(pre & y & post & -> & Hpre & Hy)].
    + left. by constructor.
    + right. exists (x :: pre), y, post. split; [done|]. split; [|done].
      by constructor.
  - right. exists [], x, l. split; [done|]. split; [constructor|done].
Qed.

Lemma for_app_Return {S A} (l1 l2 : list A) (body : A → M S unit) (s s1 : S) :
  for_ l1 body s = (s1, Return tt) →
  for_ (l1 ++ l2) body s = for_ l2 body s1.
Proof. intros Hrun. rewrite for_app. unfold_M. by rewrite Hrun. Qed.

Lemma for_cons_Raise {S A} (x : A) (l : list A) (body : A → M S unit)
    (s s1 : S) (e : exn) :
  body x s = (s1, Raise e) → for_ (x :: l) body s = (s1, Raise e).
Proof. intros Hrun. cbn [for_]. unfold_M. by rewrite Hrun. Qed.

Lemma for_cons_Return {S A} (x : A) (l : list A) (body : A → M S unit)
    (s s1 : S) :
  body x s = (s1, Return tt) → for_ (x :: l) body s = for_ l body s1.
Proof. intros Hrun. cbn [for_]. unfold_M. by rewrite Hrun. Qed.

(** The loop over the shards of one volume (lines 120 to 123). *)
Lemma shard_details_run (ss : list ShardEntry) (out : list text) :
  Forall (λ s, PrimFloat.is_zero (time s) = false) ss →
  for_ ss (λ shard,
    print [Str "Shard "; Int (full_concept.shard shard); Str ": ";
           Str (name (path_of_str (file shard)))] ;;
    print [Str "  Size: "; F2 (size shard); Str " GB"] ;;
    speed ← lift (truediv (size shard) (time shard));
    print [Str "  Speed: "; F2 speed; Str " GB/s"]) out
  = (out ++ mjoin (shard_report <$> ss), Return tt).
Proof.
  intros Hss. revert out. induction Hss as [|s ss Hs _ IH]; intros out.
  - cbn. by rewrite app_nil_r.
  - erewrite for_cons_Return; [rewrite IH|].
    + cbn [fmap list_fmap mjoin list_join]. by rewrite app_assoc.
    + unfold_M. rewrite !print_run. unfold truediv. rewrite Hs, print_run.
      unfold shard_report. by rewrite <-!app_assoc.
Qed.

Lemma shard_details_raise (spre spost : list ShardEntry) (s : ShardEntry)
    (out : list text) :
  Forall (λ s, PrimFloat.is_zero (time s) = false) spre →
  PrimFloat.is_zero (time s) = true →
  for_ (spre ++ s :: spost) (λ shard,
    print [Str "Shard "; Int (full_concept.shard shard); Str ": ";
           Str (name (path_of_str (file shard)))] ;;
    print [Str "  Size: "; F2 (size shard); Str " GB"] ;;
    speed ← lift (truediv (size shard) (time shard));
    print [Str "  Speed: "; F2 speed; Str " GB/s"]) out
  = (out ++ mjoin (shard_report <$> spre)
         ++ [[Str "Shard "; Int (shard s); Str ": ";
              Str (name (path_of_str (file s)))];
             [Str "  Size: "; F2 (size s); Str " GB"]],
     Raise (Exn ZeroDivisionError [Str "float division by zero"])).
Proof.
  intros Hpre Hs.
  erewrite for_app_Return by (by apply shard_details_run).
  erewrite for_cons_Raise; [done|].
  unfold_M. rewrite !print_run. unfold truediv. rewrite Hs.
  by rewrite <-!app_assoc.
Qed.

Lemma process_results_run (results : list WorkerResult) (out : list text) :
  Forall durations_nonzero results →
  process_results results out
  = (out ++ mjoin (volume_report <$> results), Return tt).
Proof.
  intros Hall. revert out. unfold process_results.
  induction Hall as [|r results [Hr Hss] _ IH]; intros out.
  - cbn. by rewrite app_nil_r.
  - erewrite for_cons_Return; [rewrite IH|].
    + cbn [fmap list_fmap mjoin list_join]. by rewrite app_assoc.
    + unfold_M. rewrite !print_run. unfold truediv. rewrite Hr, !print_run.
      pose proof (shard_details_run (shards r)) as Hrun.
      unfold_M. unfold truediv in Hrun. rewrite (Hrun _ Hss).
      unfold volume_report, volume_report_head. by rewrite <-!app_assoc.
Qed.

(** X15 — the per-volume report (lines 112 to 123).  When no total duration
    and no shard duration is zero, the report returns after printing, for each
    volume in order, five lines and then three lines for each of its shards.
    Otherwise it raises [ZeroDivisionError] at the first zero duration, and
    what it has printed by then is: the full reports of the volumes before;
    and either the first three lines of the volume whose total duration is
    zero, or the five lines of the volume, the lines of its shards before the
    one whose duration is zero, and the first two lines of that shard.
    Nothing is printed for the volumes and shards after it. *)
Theorem process_results_outcome (results : list WorkerResult) (out : list text) :
  (Forall durations_nonzero results
   ∧ process_results results out
     = (out ++ mjoin (volume_report <$> results), Return tt))
  ∨ (∃ pre r post msg,
       results = pre ++ r :: post
       ∧ Forall durations_nonzero pre
       ∧ PrimFloat.is_zero (total_time r) = true
       ∧ process_results results out
         = (out ++ mjoin (volume_report <$> pre)
                ++ [[Str newline; Str (raid_name r); Str " Results:"];
                    [Str "Total Size: "; F2 (total_size r); Str " GB"];
                    [Str "Total Time: "; F2 (total_time r); Str " seconds"]],
            Raise (Exn ZeroDivisionError msg)))
  ∨ (∃ pre r post spre s spost msg,
       results = pre ++ r :: post
       ∧ Forall durations_nonzero pre
       ∧ PrimFloat.is_zero (total_time r) = false
       ∧ shards r = spre ++ s :: spost
       ∧ Forall (λ s, PrimFloat.is_zero (time s) = false) spre
       ∧ PrimFloat.is_zero (time s) = true
       ∧ process_results results out
         = (out ++ mjoin (volume_report <$> pre)
                ++ volume_report_head r
                ++ mjoin (shard_report <$> spre)
                ++ [[Str "Shard "; Int (shard s); Str ": ";
                     Str (name (path_of_str (file s)))];
                    [Str "  Size: "; F2 (size s); Str " GB"]],
            Raise (Exn ZeroDivisionError msg))).
Proof.
  destruct (first_failing durations_nonzero results)
    as [Hall|(pre & r & post & -> & Hpre & Hr)].
  { left. split; [done|]. by apply process_results_run. }
  right. pose proof (process_results_run pre out Hpre) as Hrun.
  unfold process_results in *.
  destruct (PrimFloat.is_zero (total_time r)) eqn:Hz.
  - left. exists pre, r, post, [Str "float division by zero"].
    split; [done|]. split; [done|]. split; [done|].
    erewrite for_app_Return by exact Hrun.
    erewrite for_cons_Raise; [done|].
    unfold_M. rewrite !print_run. unfold truediv. rewrite Hz.
    by rewrite <-!app_assoc.
  - right.
    destruct (first_failing (λ s, PrimFloat.is_zero (time s) = false)
                (shards r))
      as [Hss|(spre & s & spost & Hshards & Hspre & Hs)];
      [by destruct Hr|].
    apply not_false_is_true in Hs.
    exists pre, r, post, spre, s, spost, [Str "float division by zero"].
    split; [done|]. split; [done|]. split; [done|]. split; [done|].
    split; [done|]. split; [done|].
    erewrite for_app_Return by exact Hrun.
    erewrite for_cons_Raise; [done|].
    unfold_M. rewrite !print_run. unfold truediv. rewrite Hz, !print_run.
    pose proof (shard_details_raise spre spost s) as Hraise.
    unfold_M. unfold truediv in Hraise. rewrite Hshards.
    rewrite (Hraise _ Hspre Hs). unfold volume_report_head.
    by rewrite <-!app_assoc.
Qed.

Lemma overall_statistics_run (results : list WorkerResult) (out : list text)
    (r0 : WorkerResult) (rest : list WorkerResult) :
  results = r0 :: rest →
  Forall (λ r, PrimFloat.is_zero (total_time r) = false) results →
  overall_statistics results out
  = (out ++ [[Str newline; Str "Overall Statistics:"]]
         ++ ((λ r, [Str (raid_name r); Str ": "; F2 (total_size r);
                    Str " GB at "; F2 (total_size r / total_time r)%float;
                    Str " GB/s"]) <$> results)
         ++ [[Str "Combined Data Loaded: ";
              F2 (py_sum (total_size <$> results)); Str " GB"];
             [Str "Total Time: ";
              F2 (fold_left (max_step PrimFloat.ltb) (total_time <$> rest)
                    (total_time r0)); Str " seconds"];
             [Str "Effective Speed: ";
              F2 (py_sum (total_size <$> results)
                  / fold_left (max_step PrimFloat.ltb) (total_time <$> rest)
                      (total_time r0))%float;
              Str " GB/s"]],
     Return tt).
Proof.
  intros -> Hnz. set (rs := r0 :: rest) in *.
  set (m := fold_left (max_step PrimFloat.ltb) (total_time <$> rest)
              (total_time r0)).
  assert (m ∈ total_time <$> rs) as Hin by apply fold_max_step_in.
  assert (PrimFloat.is_zero m = false) as Hm.
  { apply list_elem_of_fmap in Hin as (r & -> & Hr).
    by apply (proj1 (Forall_forall _ _) Hnz). }
  unfold overall_statistics.
  replace (py_max PrimFloat.ltb (total_time <$> rs)) with (Return m) by done.
  unfold_M. rewrite print_run, (volume_lines_run rs _ Hnz), !print_run.
  rewrite (truediv_nonzero _ _ Hm), print_run.
  by rewrite <-!app_assoc.
Qed.

(** X16 — a run that goes through.  When the shard-count check passes, both
    workers return, and none of their durations is zero, the entry point
    returns after printing, in this order: the lines printed so far, the
    announcement, the per-volume details (five lines for each volume, three
    for each shard), and the overall statistics, which end with the combined
    size [0 + s0 + s1], the larger of the two total durations, and their
    quotient.  No error line is printed. *)
Theorem measure_success (w : World) (dir1 dir2 : string) (out out1 : list text)
    (files1 files2 : list string) (r0 r1 : WorkerResult) :
  get_weight_files w dir1 dir2 (out ++ [banner dir1 dir2])
  = (out1, Return (files1, files2)) →
  load_raid_shards w (files1, "RAID0", 0) = Return r0 →
  load_raid_shards w (files2, "RAID1", 1) = Return r1 →
  durations_nonzero r0 → durations_nonzero r1 →
  ∃ details,
    length details = 10 + 3 * (length files1 + length files2)
    ∧ measure_split_transfer_speed w dir1 dir2 out
      = (out1 ++ announcement ++ details
         ++ [[Str newline; Str "Overall Statistics:"];
             [Str (raid_name r0); Str ": "; F2 (total_size r0); Str " GB at ";
              F2 (total_size r0 / total_time r0)%float; Str " GB/s"];
             [Str (raid_name r1); Str ": "; F2 (total_size r1); Str " GB at ";
              F2 (total_size r1 / total_time r1)%float; Str " GB/s"];
             [Str "Combined Data Loaded: ";
              F2 (0 + total_size r0 + total_size r1)%float; Str " GB"];
             [Str "Total Time: ";
              F2 (if (total_time r0 <? total_time r1)%float
                  then total_time r1 else total_time r0); Str " seconds"];
             [Str "Effective Speed: ";
              F2 ((0 + total_size r0 + total_size r1)
                  / (if (total_time r0 <? total_time r1)%float
                     then total_time r1 else total_time r0))%float;
              Str " GB/s"]],
         Return tt).
Proof.
  intros Hfiles H0 H1 Hd0 Hd1. rewrite measure_run. unfold measure_try_block.
  unfold_M. rewrite Hfiles, !print_run.
  assert (pool_map (arrival w) (load_raid_shards w)
            [(files1, "RAID0", 0); (files2, "RAID1", 1)] = Return [r0; r1])
    as ->.
  { apply pool_map_Return.
    constructor; [done|]. constructor; [done|]. constructor. }
  match goal with
  | |- context [process_results _ ?o] =>
      destruct (process_results_cases [r0; r1] o)
        as (details & [(_ & Hlen & ->)|(Hnot & _)])
  end;
    [|exfalso; apply Hnot; constructor; [done|]; constructor; [done|];
      constructor].
  rewrite (overall_statistics_run [r0; r1] _ r0 [r1] eq_refl)
    by (constructor; [apply Hd0|]; constructor; [apply Hd1|]; constructor).
  exists details. split.
  - etrans; [exact Hlen|]. cbn.
    apply load_raid_shards_totals in H0 as (Hf0 & _).
    apply load_raid_shards_totals in H1 as (Hf1 & _). cbn in Hf0, Hf1.
    rewrite <-Hf0, <-Hf1, !length_fmap. lia.
  - unfold announcement. by rewrite <-!app_assoc.
Qed.

Lemma measure_success_witness :
  ∃ r0 r1,
    load_raid_shards healthy_world (raid0_files, "RAID0", 0) = Return r0
    ∧ load_raid_shards healthy_world (raid1_files, "RAID1", 1) = Return r1
    ∧ durations_nonzero r0 ∧ durations_nonzero r1
    ∧ length (measure_split_transfer_speed healthy_world
                "/mnt/raid0" "/mnt/raid1" []).1 = 73.
Proof.
  destruct (load_raid_shards healthy_world (raid0_files, "RAID0", 0))
    as [r0|] eqn:H0; [|vm_compute in H0; discriminate H0].
  destruct (load_raid_shards healthy_world (raid1_files, "RAID1", 1))
    as [r1|] eqn:H1; [|vm_compute in H1; discriminate H1].
  assert (durations_nonzero r0) as Hd0.
  { vm_compute in H0. injection H0 as <-. split; [reflexivity|].
    repeat constructor. }
  assert (durations_nonzero r1) as Hd1.
  { vm_compute in H1. injection H1 as <-. split; [reflexivity|].
    repeat constructor. }
  assert (get_weight_files healthy_world "/mnt/raid0" "/mnt/raid1"
            ([] ++ [banner "/mnt/raid0" "/mnt/raid1"])
          = ([banner "/mnt/raid0" "/mnt/raid1";
              [Str "Found "; Int 8; Str " shards in "; Str "/mnt/raid0";
               Str " (shards 1-8)"];
              [Str "Found "; Int 8; Str " shards in "; Str "/mnt/raid1";
               Str " (shards 9-16)"];
              [Str newline; Str "Additional files in RAID1:"];
              [Str "  "; Str "config.json"]],
             Return (raid0_files, raid1_files))) as Hfiles
    by (vm_compute; reflexivity).
  exists r0, r1. split; [reflexivity|]. split; [reflexivity|].
  split; [exact Hd0|]. split; [exact Hd1|].
  destruct (measure_success _ _ _ _ _ _ _ _ _ Hfiles H0 H1 Hd0 Hd1)
    as (details & Hlen & Hrun).
  rewrite Hrun. cbn [fst]. rewrite !length_app, Hlen. reflexivity.
Defined.

(** *** File names that follow the pattern *)

Lemma list_ascii_of_string_app (s1 s2 : string) :
  list_ascii_of_string (s1 ++ s2)%string
  = list_ascii_of_string s1 ++ list_ascii_of_string s2.
Proof. induction s1 as [|c s1 IH]; [done|]. simpl. f_equal. exact IH. Qed.

Lemma split_nonempty (sep : ascii) (s : string) : split sep s ≠ [].
Proof.
  destruct s as [|c s]; [done|]. cbn [split].
  destruct (Ascii.eqb c sep); [done|]. by destruct (split sep s).
Qed.

Lemma split_app_sep (sep : ascii) (s1 s2 : string) :
  split sep (s1 ++ String sep s2)%string = split sep s1 ++ split sep s2.
Proof.
  induction s1 as [|c s1 IH].
  - change (split sep (String sep s2) = [""] ++ split sep s2).
    cbn [split app]. by rewrite Ascii.eqb_refl.
  - change (split sep (String c (s1 ++ String sep s2)%string)
            = split sep (String c s1) ++ split sep s2).
    cbn [split]. rewrite IH. destruct (Ascii.eqb c sep); [done|].
    pose proof (split_nonempty sep s1). by destruct (split sep s1).
Qed.

Lemma digit_string_chars (ds : string) :
  digit_string ds = true →
  ds ≠ "" ∧ Forall (λ c, is_Some (digit_of c)) (list_ascii_of_string ds).
Proof.
  unfold digit_string. intros [Hne Hall]%andb_true_iff. split.
  - intros ->. done.
  - apply Forall_forall. intros c Hc.
    apply (proj1 (forallb_forall _ _) Hall c) in Hc
      || (apply list_elem_of_In in Hc;
          apply (proj1 (forallb_forall _ _) Hall c) in Hc).
    by apply bool_decide_eq_true in Hc.
Qed.

Lemma digit_not_space (c : ascii) : is_Some (digit_of c) → is_space c = false.
Proof.
  unfold digit_of, is_space. intros [d Hd].
  destruct ((48 <=? N_of_ascii c)%N && (N_of_ascii c <=? 57)%N) eqn:Hr;
    [|done].
  apply andb_true_iff in Hr as [H1%N.leb_le H2%N.leb_le].
  repeat (apply orb_false_iff; split);
    try (apply andb_false_iff; right); try apply N.leb_gt; try apply N.eqb_neq;
    lia.
Qed.

Lemma digit_not_char (c x : ascii) :
  is_Some (digit_of c) → digit_of x = None → Ascii.eqb c x = false.
Proof.
  intros [d Hd] Hx. apply Ascii.eqb_neq. intros ->. congruence.
Qed.

Lemma lstrip_id (l : list ascii) :
  (∀ c, head l = Some c → is_space c = false) → lstrip l = l.
Proof. destruct l as [|c l]; [done|]. cbn. intros H. by rewrite (H c). Qed.

Lemma strip_digits (l : list ascii) :
  Forall (λ c, is_Some (digit_of c)) l → strip l = l.
Proof.
  intros Hall. unfold strip.
  rewrite (lstrip_id l).
  - rewrite lstrip_id; [apply reverse_involutive|].
    intros c Hc. rewrite head_reverse in Hc. apply last_Some_elem_of in Hc.
    apply digit_not_space. by apply (proj1 (Forall_forall _ _) Hall).
  - intros c Hc. apply digit_not_space.
    apply (proj1 (Forall_forall _ _) Hall). destruct l; simplify_eq/=. by left.
Qed.

Lemma digits_all (l : list ascii) (b : bool) (acc : Z) :
  Forall (λ c, is_Some (digit_of c)) l → (b = true ∨ l ≠ []) →
  digits b acc l
  = Some (fold_left (λ acc c, (10 * acc + default 0 (digit_of c))%Z) l acc).
Proof.
  intros Hall. revert b acc.
  induction Hall as [|c l [d Hd] _ IH]; intros b acc Hb.
  - destruct Hb as [->|]; done.
  - cbn. rewrite Hd. cbn. apply IH. by left.
Qed.

Lemma int_literal_digits (ds : string) :
  digit_string ds = true → int_literal ds = Some (digits_value ds).
Proof.
  intros [Hne Hall]%digit_string_chars. unfold int_literal, digits_value.
  rewrite (strip_digits _ Hall).
  destruct (list_ascii_of_string ds) as [|c l] eqn:Hl.
  - destruct ds; [done|discriminate Hl].
  - assert (is_Some (digit_of c)) as Hc by (by apply Forall_cons in Hall as [? _]).
    rewrite (digit_not_char c "+" Hc eq_refl), (digit_not_char c "-" Hc eq_refl).
    apply digits_all; [done | by right].
Qed.

Lemma digits_value_nonneg (ds : string) : (0 ≤ digits_value ds)%Z.
Proof.
  unfold digits_value.
  assert (∀ l acc, (0 ≤ acc)%Z →
            (0 ≤ fold_left (λ acc c, 10 * acc + default 0 (digit_of c)) l acc)%Z)
    as Hfold; [|by apply Hfold].
  induction l as [|c l IH]; intros acc Hacc; [done|].
  cbn. apply IH. unfold digit_of.
  destruct ((48 <=? N_of_ascii c)%N && (N_of_ascii c <=? 57)%N) eqn:Hr; cbn.
  - apply andb_true_iff in Hr as [H1%N.leb_le H2%N.leb_le]. lia.
  - lia.
Qed.

(** X17 — names that follow the pattern.  For a file [dir/pre-ds-rest] where
    [ds] is a non-empty string of digits, [pre] has no ['-'] and neither [pre]
    nor [rest] has a ['/'], the shard number is the number [ds] denotes,
    leading zeros allowed; it is never negative. *)
Theorem shard_number_of_pattern (dir pre ds rest : string) :
  "-"%char ∉ list_ascii_of_string pre →
  "/"%char ∉ list_ascii_of_string pre →
  "/"%char ∉ list_ascii_of_string rest →
  digit_string ds = true →
  shard_number (dir ++ "/" ++ pre ++ "-" ++ ds ++ "-" ++ rest)%string
  = Return (digits_value ds)
  ∧ (0 ≤ digits_value ds)%Z.
Proof.
  intros Hdash Hslash Hslash' Hds. split; [|apply digits_value_nonneg].
  pose proof (digit_string_chars ds Hds) as [Hne Hall].
  set (nm := (pre ++ "-" ++ ds ++ "-" ++ rest)%string).
  assert (∀ x, digit_of x = None → x ∉ list_ascii_of_string ds) as Hnot.
  { intros x Hx Hin. apply (proj1 (Forall_forall _ _) Hall) in Hin as [d Hd].
    congruence. }
  assert ("/"%char ∉ list_ascii_of_string nm) as Hnm.
  { unfold nm. rewrite !list_ascii_of_string_app. cbn.
    rewrite !elem_of_app, !elem_of_cons, !elem_of_app, !elem_of_cons.
    pose proof (Hnot "/"%char eq_refl). intros [?|[?|[?|[?|?]]]]; done. }
  assert (nm ≠ "" ∧ nm ≠ ".") as Hname.
  { unfold nm. destruct pre as [|c [|c' pre]]; cbn; split; done. }
  assert (name (path_of_str (dir ++ "/" ++ nm)%string) = nm) as Hpath.
  { unfold path_of_str. change ("/" ++ nm)%string with (String "/" nm).
    rewrite split_app_sep, (split_no_sep "/" nm Hnm), filter_app.
    rewrite filter_cons_True by done. rewrite filter_nil.
    unfold name. by rewrite last_snoc. }
  unfold shard_number. fold nm. rewrite Hpath. unfold nm.
  change ("-" ++ ds ++ "-" ++ rest)%string
    with (String "-" (ds ++ String "-" rest)).
  rewrite !split_app_sep, (split_no_sep "-" pre Hdash).
  rewrite (split_no_sep "-" ds (Hnot "-"%char eq_refl)).
  cbn [app getitem lookup list_lookup]. unfold_M. unfold py_int.
  by rewrite (int_literal_digits ds Hds).
Qed.

Lemma shard_number_of_pattern_witness :
  ("-"%char ∉ list_ascii_of_string "model")
  ∧ ("/"%char ∉ list_ascii_of_string "model")
  ∧ ("/"%char ∉ list_ascii_of_string "of-00016.safetensors")
  ∧ digit_string "00012" = true
  ∧ shard_number "/mnt/raid1/model-00012-of-00016.safetensors" = Return 12%Z.
Proof.
  assert ("-"%char ∉ list_ascii_of_string "model") as H1
    by (apply (bool_decide_unpack _); vm_compute; reflexivity).
  assert ("/"%char ∉ list_ascii_of_string "model") as H2
    by (apply (bool_decide_unpack _); vm_compute; reflexivity).
  assert ("/"%char ∉ list_ascii_of_string "of-00016.safetensors") as H3
    by (apply (bool_decide_unpack _); vm_compute; reflexivity).
  assert (digit_string "00012" = true) as H4 by reflexivity.
  split; [exact H1|]. split; [exact H2|]. split; [exact H3|].
  split; [exact H4|].
  exact (proj1 (shard_number_of_pattern "/mnt/raid1" "model" "00012"
                  "of-00016.safetensors" H1 H2 H3 H4)).
Defined.

(** *** Which entries are shards *)

Lemma string_length_app (s1 s2 : string) :
  String.length (s1 ++ s2)%string = String.length s1 + String.length s2.
Proof. induction s1 as [|c s1 IH]; [done|]. simpl. by f_equal. Qed.

Lemma substring_full (s : string) : substring 0 (String.length s) s = s.
Proof. induction s as [|c s IH]; [done|]. simpl. by f_equal. Qed.

Lemma substring_app_r (s1 s2 : string) (m : nat) :
  substring (String.length s1) m (s1 ++ s2)%string = substring 0 m s2.
Proof. induction s1 as [|c s1 IH]; [done|]. exact IH. Qed.

Lemma substring_split (s : string) (i : nat) :
  i ≤ String.length s →
  s = (substring 0 i s ++ substring i (String.length s - i) s)%string
  ∧ String.length (substring 0 i s) = i.
Proof.
  revert i. induction s as [|c s IH]; intros i Hi.
  - cbn in Hi. by replace i with 0 by lia.
  - destruct i as [|i].
    + cbn. by rewrite substring_full.
    + cbn in Hi. destruct (IH i) as [Hs Hlen]; [lia|].
      split; [|simpl; by rewrite Hlen].
      change (String c s
              = String c (substring 0 i s
                          ++ substring i (String.length s - i) s)%string).
      f_equal. exact Hs.
Qed.

Lemma rfind_app (c : ascii) (s1 s2 : string) :
  rfind c (s1 ++ s2)%string
  = match rfind c s2 with
    | Some i => Some (String.length s1 + i)
    | None => rfind c s1
    end.
Proof.
  induction s1 as [|a s1 IH].
  - change ("" ++ s2)%string with s2. by destruct (rfind c s2).
  - simpl. rewrite IH. by destruct (rfind c s2).
Qed.

Lemma rfind_lt (c : ascii) (s : string) (i : nat) :
  rfind c s = Some i → i < String.length s.
Proof.
  revert i. induction s as [|a s IH]; intros i; [done|]. cbn.
  destruct (rfind c s) as [j|].
  - intros [= <-]. specialize (IH j eq_refl). lia.
  - destruct (Ascii.eqb a c); [|done]. intros [= <-]. lia.
Qed.

Lemma suffix_safetensors (p : Path) :
  suffix p = ".safetensors"
  ↔ ∃ stem, stem ≠ "" ∧ name p = (stem ++ ".safetensors")%string.
Proof.
  unfold suffix. split.
  - destruct (rfind "." (name p)) as [i|] eqn:Hi; [|done].
    destruct ((0 <? i) && (i <? String.length (name p) - 1)) eqn:Hc; [|done].
    apply andb_prop in Hc as [H0 _]. apply Nat.ltb_lt in H0.
    apply rfind_lt in Hi.
    destruct (substring_split (name p) i) as [Hs Hlen]; [lia|].
    intros Hsuf. exists (substring 0 i (name p)). split.
    + intros Hnil. rewrite Hnil in Hlen. cbn in Hlen. lia.
    + by rewrite Hsuf in Hs.
  - intros (stem & Hne & ->).
    rewrite rfind_app, string_length_app.
    change (rfind "." ".safetensors") with (Some 0).
    change (String.length ".safetensors") with 12.
    assert (0 < String.length stem) by (destruct stem; [done|cbn; lia]).
    cbv beta iota. rewrite Nat.add_0_r.
    replace ((0 <? String.length stem)
             && (String.length stem <? String.length stem + 12 - 1))
      with true
      by (symmetry; apply andb_true_intro; split; apply Nat.ltb_lt; lia).
    replace (String.length stem + 12 - String.length stem) with 12 by lia.
    by rewrite substring_app_r.
Qed.

Lemma endswith_app (n suf : string) :
  endswith n suf = true ↔ ∃ stem, n = (stem ++ suf)%string.
Proof.
  unfold endswith. rewrite andb_true_iff, Nat.leb_le, String.eqb_eq. split.
  - intros [Hle Hsuf].
    destruct (substring_split n (String.length n - String.length suf))
      as [Hs _]; [lia|].
    replace (String.length n - (String.length n - String.length suf))
      with (String.length suf) in Hs by lia.
    rewrite Hsuf in Hs. by eexists.
  - intros [stem ->]. rewrite string_length_app. split; [lia|].
    replace (String.length stem + String.length suf - String.length suf)
      with (String.length stem) by lia.
    by rewrite substring_app_r, substring_full.
Qed.

Lemma string_app_inj (s a b : string) :
  (s ++ a)%string = (s ++ b)%string → a = b.
Proof. induction s as [|c s IH]; [done|]. intros [= Heq]. by apply IH. Qed.

(** X18 — which entries are shards.  [split_folder] treats an entry of the
    source directory as a shard exactly when its name is a non-empty stem
    followed by [.safetensors]: the extension is matched with its case, and
    an entry named just [.safetensors] goes with the other files. *)
Theorem shard_by_name (all_files : list Path) (p : Path) :
  (p ∈ shards_of all_files
   ↔ p ∈ all_files
     ∧ ∃ stem, stem ≠ "" ∧ name p = (stem ++ ".safetensors")%string)
  ∧ (p ∈ others_of all_files
     ↔ p ∈ all_files
       ∧ ¬ ∃ stem, stem ≠ "" ∧ name p = (stem ++ ".safetensors")%string).
Proof.
  rewrite shards_of_spec, others_of_spec, suffix_safetensors. done.
Qed.

(** X19 — the harness and the distributor agree on shards.  Every entry of
    a directory that [split_folder] would treat as a shard is among the files
    [get_weight_files] globs there, and the only other entry the glob yields
    is one named just [.safetensors]. *)
Theorem glob_covers_shards (w : World) (dir n : string) :
  (dir ++ "/" ++ n)%string ∈ glob w dir ".safetensors"
  ↔ n ∈ listdir w dir
    ∧ (suffix (path_of_str dir / n)%path = ".safetensors"
       ∨ n = ".safetensors").
Proof.
  unfold glob. rewrite list_elem_of_fmap. setoid_rewrite list_elem_of_filter.
  rewrite suffix_safetensors, name_joinpath. split.
  - intros (n' & Heq & Hend & Hin).
    apply string_app_inj, string_app_inj in Heq as ->.
    split; [done|]. apply endswith_app in Hend as [stem ->].
    destruct stem as [|c stem]; [by right|]. left. by eexists (String c stem).
  - intros [Hin Hn]. exists n. split; [done|]. split; [|done].
    apply endswith_app. destruct Hn as [(stem & _ & ->)| ->]; [by eexists|].
    by exists "".
Qed.
